(** * crewAI: task execution, tool-use interception and delegation tools

    A shallow embedding of three modules of the crewAI sources

      - [src/crewai/agents/tools_handler.py]  ([ToolsHandler])
      - [src/crewai/tools/agent_tools.py]     ([AgentTools])
      - [src/crewai/task.py]                  ([Task])

    together with the properties stated about them.  Python values are
    modelled by the small universe [PyVal]; a call that can raise returns an
    [outcome]; objects that are mutated through shared references (tasks and
    their worker threads) live in an explicit store. *)

From Stdlib Require Import Ascii String Lia.
From stdpp Require Import base option list gmap strings countable.

Local Open Scope string_scope.

(** ** Python values, exceptions and results *)

(** The values a [Dict[str, Any]] of the callback interface holds in the
    code under study: [None] or a [str]. *)
Inductive PyVal : Type :=
| PyNone
| PyStr (s : string).

#[global] Instance PyVal_eq_dec : EqDecision PyVal.
Proof. solve_decision. Defined.

Definition PyVal_to_option (v : PyVal) : option string :=
  match v with PyNone => None | PyStr s => Some s end.

Definition PyVal_of_option (o : option string) : PyVal :=
  match o with None => PyNone | Some s => PyStr s end.

#[global] Instance PyVal_countable : Countable PyVal.
Proof.
  apply (inj_countable' PyVal_to_option PyVal_of_option).
  by intros [].
Defined.

(** Exceptions, one constructor per raise site kind.  [Exception] is the
    plain [Exception(msg)] raised by [Task.execute]; [BackendError] is
    whatever an agent's [execute_task] raised (the payload is opaque);
    [FormatUnsupported] marks replacement fields of [str.format] whose
    meaning (conversions, format specs, attribute or index access) is
    outside this model; [DanglingRef] is a reference absent from the
    store, which no Python reference ever is. *)
Inductive exn : Type :=
| KeyError (key : string)
| IndexError
| ValueError
| AttributeError (attr : string)
| Exception (msg : string)
| BackendError (payload : string)
| FormatUnsupported (field : string)
| DanglingRef.

Inductive outcome (A : Type) : Type :=
| Ret (a : A)
| Raise (e : exn).
Arguments Ret {A} a.
Arguments Raise {A} e.

#[global] Instance outcome_ret : MRet outcome := @Ret.
#[global] Instance outcome_bind : MBind outcome := λ A B f m,
  match m with Ret a => f a | Raise e => Raise e end.
#[global] Instance outcome_fmap : FMap outcome := λ A B f m,
  match m with Ret a => Ret (f a) | Raise e => Raise e end.

Definition is_Ret {A} (r : outcome A) : bool :=
  match r with Ret _ => true | Raise _ => false end.

(** ** Python string operations *)

(** [sub in s] *)
Fixpoint str_in (sub s : string) : bool :=
  String.prefix sub s ||
  match s with
  | EmptyString => false
  | String _ s' => str_in sub s'
  end.

(** [s.split(sep)] for a one-character separator: the pieces between
    consecutive occurrences, never an empty list. *)
Fixpoint split (sep : ascii) (s : string) : list string :=
  match s with
  | EmptyString => [EmptyString]
  | String c s' =>
      if decide (c = sep) then EmptyString :: split sep s'
      else match split sep s' with
           | piece :: pieces => String c piece :: pieces
           | [] => [String c EmptyString]
           end
  end.

(** [sep.join(l)] *)
Fixpoint join (sep : string) (l : list string) : string :=
  match l with
  | [] => EmptyString
  | [x] => x
  | x :: l' => x +:+ sep +:+ join sep l'
  end.

Fixpoint count_char (c : ascii) (s : string) : nat :=
  match s with
  | EmptyString => 0
  | String c' s' => (if decide (c' = c) then 1 else 0) + count_char c s'
  end.

(** The one-character string ["\n"]. *)
Definition newline : string := String "010"%char EmptyString.

(** Truthiness of an [Optional[str]]: [None] and [""] are falsy. *)
Definition str_truthy (o : option string) : bool :=
  match o with
  | Some (String _ _) => true
  | _ => false
  end.

(** *** [str.format] with keyword arguments

    The fragment modelled: literal text, the escapes [{{] and [}}], and
    replacement fields [{name}] looked up in the keyword arguments.  An
    empty or numeric field is positional, and no positional argument is
    ever passed by the code, hence [IndexError].  A field that uses a
    conversion, a format spec (with or without nested fields), an
    attribute or an index is outside the fragment: the outcome is then
    [FormatUnsupported], which is no outcome of Python's and says nothing
    about what Python does with such a template. *)

Definition kwargs : Type := list (string * string).

Fixpoint kw_get (k : string) (kw : kwargs) : option string :=
  match kw with
  | [] => None
  | (k', v) :: kw' => if decide (k' = k) then Some v else kw_get k kw'
  end.

Definition is_digit (c : ascii) : bool :=
  let n := nat_of_ascii c in (48 <=? n)%nat && (n <=? 57)%nat.

Fixpoint all_digits (s : string) : bool :=
  match s with
  | EmptyString => true
  | String c s' => is_digit c && all_digits s'
  end.

Fixpoint has_field_syntax (s : string) : bool :=
  match s with
  | EmptyString => false
  | String c s' =>
      bool_decide (c = "!"%char) || bool_decide (c = ":"%char)
      || bool_decide (c = "."%char) || bool_decide (c = "["%char)
      || has_field_syntax s'
  end.

Definition field_value (kw : kwargs) (field : string)   : outcome string :=
  if all_digits field then Raise IndexError
  else if has_field_syntax field then Raise (FormatUnsupported field)
  else match kw_get field kw with
       | Some v => Ret v
       | None => Raise (KeyError field)
       end.

(** The scanner: [field = None] while reading literal text, [Some acc]
    while inside a replacement field whose name read so far is [acc]. *)
Fixpoint format_from (kw : kwargs) (field : option string) (s : string)
    : outcome string :=
  match field, s with
  | None, EmptyString => Ret EmptyString
  | None, String c s' =>
      if decide (c = "{"%char) then
        match s' with
        | EmptyString => Raise ValueError
        | String c' s'' =>
            if decide (c' = "{"%char)
            then String "{"%char <$> format_from kw None s''
            else format_from kw (Some EmptyString) s'
        end
      else if decide (c = "}"%char) then
        match s' with
        | EmptyString => Raise ValueError
        | String c' s'' =>
            if decide (c' = "}"%char)
            then String "}"%char <$> format_from kw None s''
            else Raise ValueError
        end
      else String c <$> format_from kw None s'
  | Some _, EmptyString => Raise ValueError
  | Some acc, String c s' =>
      if decide (c = "}"%char) then
        v ← field_value kw acc;
        (λ rest, v +:+ rest) <$> format_from kw None s'
      else if decide (c = "{"%char) then
        if has_field_syntax acc then Raise (FormatUnsupported acc)
        else Raise ValueError
      else format_from kw (Some (acc +:+ String c EmptyString)) s'
  end.

Definition str_format (template : string) (kw : kwargs)   : outcome string :=
  format_from kw None template.

(** ** The Cache Store *)

Module CacheHandler.
(** Modelled from the spec: the Cache Store ([crewai.agents.cache], not
    among the sources) maps a (tool, input) pair to the output last
    written for it, with contract [add(tool, input, output) -> void].
    [adds] is the log of the [add] calls received, oldest first. *)
Record t : Type := mk {
  entries : gmap (PyVal * PyVal) string;
  adds : list (PyVal * PyVal * string)
}.

Definition empty : t := {| entries := ∅; adds := [] |}.

Definition add (tool input : PyVal) (output : string) (self : t) : t :=
  {| entries := <[(tool, input) := output]> (entries self);
     adds := adds self ++ [(tool, input, output)] |}.
End CacheHandler.

(** ** [ToolsHandler]: the tool-use interceptor *)

Module ToolsHandler.
Section WithCacheTools.
(** [CacheTools().name]: the name of the cache-lookup tool, declared in
    [crewai.tools.cache_tools], which is not among the sources. *)
Variable CacheTools_name : string.

Record t : Type := mk {
  last_used_tool : gmap string PyVal;
  cache : CacheHandler.t
}.

(** [last_used_tool] starts as the class attribute [{}]. *)
Definition __init__ (cache : CacheHandler.t) : t :=
  {| last_used_tool := ∅; cache := cache |}.

(** [x in l] on a Python list. *)
Definition py_in (x : PyVal) (l : list PyVal) : bool :=
  existsb (λ y, bool_decide (x = y)) l.

(** [d.get(k)] *)
Definition dict_get (d : gmap string PyVal) (k : string) : PyVal :=
  default PyNone (d !! k).

(** [d[k]] *)
Definition dict_item (d : gmap string PyVal) (k : string) : outcome PyVal :=
  match d !! k with
  | Some v => Ret v
  | None => Raise (KeyError k)
  end.

Definition on_tool_start (self : t) (serialized : gmap string PyVal)
    (input_str : string) : t :=
  let name := dict_get serialized "name" in
  if negb (py_in name [PyStr "invalid_tool"; PyStr "_Exception"]) then
    let tools_usage : gmap string PyVal :=
      <["tool" := name]> (<["input" := PyStr input_str]> ∅) in
    {| last_used_tool := tools_usage; cache := cache self |}
  else self.

(** The three failure-signal tests of [on_tool_end]. *)
Definition no_failure_signal (output : string) : bool :=
  negb (str_in "is not a valid tool" output)
  && negb (str_in "Invalid or incomplete response" output)
  && negb (str_in "Invalid Format" output).

(** Returns the outcome of the call and the handler afterwards. *)
Definition on_tool_end (self : t) (output : string) : outcome unit * t :=
  if no_failure_signal output then
    match dict_item (last_used_tool self) "tool" with
    | Raise e => (Raise e, self)
    | Ret tool0 =>
        if negb (bool_decide (tool0 = PyStr CacheTools_name)) then
          match dict_item (last_used_tool self) "tool" with
          | Raise e => (Raise e, self)
          | Ret tool =>
              match dict_item (last_used_tool self) "input" with
              | Raise e => (Raise e, self)
              | Ret input =>
                  (Ret (),
                   {| last_used_tool := last_used_tool self;
                      cache := CacheHandler.add tool input output
                                 (cache self) |})
              end
          end
        else (Ret (), self)
    end
  else (Ret (), self).
End WithCacheTools.
End ToolsHandler.

(** ** External collaborators of the delegation tools and of [Task] *)

Module Tool.
(** A tool descriptor ([langchain.tools.Tool]); the code under study only
    passes descriptors along. *)
Record t : Type := mk { name : string; description : string }.
End Tool.

Module I18N.
(** The localization provider ([crewai.utilities.I18N], not among the
    sources): each accessor maps a key to a format string. *)
Record t : Type := mk {
  slice : string → string;
  errors : string → string;
  tools : string → string
}.
End I18N.

Module Agent.
(** The execution backend ([crewai.agent.Agent], not among the sources):
    a role, default tools and the entry point
    [execute_task(task, context=None, tools=None)], which returns a string
    ([inl]) or raises ([inr], with an opaque payload). *)
Record t : Type := mk {
  role : string;
  tools : list Tool.t;
  execute_task :
    string → option string → option (list Tool.t) → string + string
}.

Definition call (r : string + string) : outcome string :=
  match r with
  | inl s => Ret s
  | inr payload => Raise (BackendError payload)
  end.
End Agent.

(** ** [AgentTools]: the delegation tools *)

Module AgentTools.
Record t : Type := mk {
  agents : list Agent.t;
  i18n : I18N.t
}.

Definition _execute (self : t) (command : string) : outcome string :=
  match split "|" command with
  | [agent; task; context] =>
      if bool_decide (agent = "") || bool_decide (task = "")
         || bool_decide (context = "")
      then Ret (I18N.errors (i18n self) "agent_tool_missing_param")
      else
        let agent :=
          filter (λ available_agent, Agent.role available_agent = agent)
                 (agents self) in
        match agent with
        | [] =>
            str_format
              (I18N.errors (i18n self) "agent_tool_unexsiting_coworker")
              [("coworkers", join ", " (Agent.role <$> agents self))]
        | agent :: _ =>
            Agent.call (Agent.execute_task agent task (Some context) None)
        end
  | _ => Ret (I18N.errors (i18n self) "agent_tool_missing_param")
  end.

Definition delegate_work (self : t) (command : string) : outcome string :=
  _execute self command.

Definition ask_question (self : t) (command : string) : outcome string :=
  _execute self command.
End AgentTools.

(** ** [Task] *)

Module TaskOutput.
(** [crewai.tasks.task_output.TaskOutput], built by [Task._execute] from
    a description and a result. *)
Record t : Type := mk { description : string; result : string }.
End TaskOutput.

Module Task.
(** Tasks refer to each other ([context]) and are written to by worker
    threads, so they live in a store and are named by references. *)
Definition ref : Type := nat.
Definition tid : Type := nat.

(** The fields of a task.  [thread] is the handle of the worker last
    started for it; [callback] names the callable, if any.  A callback is
    modelled as an observer: calling it is recorded in the trace, and it
    is taken to return normally and to touch no task. *)
Record t : Type := mk {
  i18n : I18N.t;
  thread : option tid;
  description : string;
  callback : option string;
  agent : option Agent.t;
  expected_output : option string;
  context : option (list ref);
  async_execution : option bool;
  output : option TaskOutput.t;
  tools : list Tool.t
}.

Definition with_tools (l : list Tool.t) (self : t) : t :=
  {| i18n := i18n self; thread := thread self;
     description := description self; callback := callback self;
     agent := agent self; expected_output := expected_output self;
     context := context self; async_execution := async_execution self;
     output := output self; tools := l |}.

Definition with_output (o : option TaskOutput.t) (self : t) : t :=
  {| i18n := i18n self; thread := thread self;
     description := description self; callback := callback self;
     agent := agent self; expected_output := expected_output self;
     context := context self; async_execution := async_execution self;
     output := o; tools := tools self |}.

Definition with_thread (h : option tid) (self : t) : t :=
  {| i18n := i18n self; thread := h;
     description := description self; callback := callback self;
     agent := agent self; expected_output := expected_output self;
     context := context self; async_execution := async_execution self;
     output := output self; tools := tools self |}.

(** Truthiness of a list and of an [Optional[bool]]. *)
Definition list_truthy {A} (l : list A) : bool :=
  match l with [] => false | _ :: _ => true end.

Definition flag (b : option bool) : bool := default false b.

(** The [model_validator] run after the fields are set. *)
Definition check_tools (self : t) : t :=
  match agent self with
  | Some a =>
      if negb (list_truthy (tools self)) && list_truthy (Agent.tools a)
      then with_tools (tools self ++ Agent.tools a) self
      else self
  | None => self
  end.

(** Construction from the supplied field values: validation runs
    [check_tools] on them. *)
Definition construct (fields : t) : t := check_tools fields.

Definition _prompt (self : t) : outcome string :=
  if str_truthy (expected_output self) then
    output ← str_format (I18N.slice (i18n self) "expected_output")
               [("expected_output", default "" (expected_output self))];
    Ret (join newline [description self; output])
  else Ret (join newline [description self]).

(** A worker thread: the task whose [_execute] it runs, the arguments it
    was started with, and whether it has run to completion. *)
Record Thread : Type := mkThread {
  target : ref;
  th_agent : Agent.t;
  th_prompt : string;
  th_context : option string;
  th_tools : list Tool.t;
  finished : bool
}.

Definition finish (th : Thread) : Thread :=
  {| target := target th; th_agent := th_agent th;
     th_prompt := th_prompt th; th_context := th_context th;
     th_tools := th_tools th; finished := true |}.

(** What the outside world sees of an execution. *)
Inductive event : Type :=
| ExecuteTask (role task : string) (context : option string)
              (tools : option (list Tool.t))
| Callback (callback : string) (output : TaskOutput.t).

Record world : Type := mkWorld {
  tasks : gmap ref t;
  threads : list Thread;
  trace : list event
}.

Definition set_tasks (m : gmap ref t) (w : world) : world :=
  {| tasks := m; threads := threads w; trace := trace w |}.

Definition set_threads (l : list Thread) (w : world) : world :=
  {| tasks := tasks w; threads := l; trace := trace w |}.

Definition log (e : event) (w : world) : world :=
  {| tasks := tasks w; threads := threads w; trace := trace w ++ [e] |}.

(** Computations over the store that may raise. *)
Definition M (A : Type) : Type := world → outcome A * world.

Definition ret {A} (a : A) : M A := λ w, (Ret a, w).
Definition raise {A} (e : exn) : M A := λ w, (Raise e, w).
Definition bind {A B} (m : M A) (f : A → M B) : M B := λ w,
  match m w with
  | (Ret a, w') => f a w'
  | (Raise e, w') => (Raise e, w')
  end.
Definition lift {A} (r : outcome A) : M A := λ w, (r, w).
Definition modify (f : world → world) : M unit := λ w, (Ret (), f w).

#[global] Instance M_ret : MRet M := @ret.
#[global] Instance M_bind : MBind M := λ A B f m, bind m f.

Definition get_task (r : ref) : M t := λ w,
  match tasks w !! r with
  | Some x => (Ret x, w)
  | None => (Raise DanglingRef, w)
  end.

Definition _execute (self : ref) (agent : Agent.t) (task_prompt : string)
    (context : option string) (tools : list Tool.t) : M string :=
  modify (log (ExecuteTask (Agent.role agent) task_prompt context
                 (Some tools)));;
  result ← lift (Agent.call
                    (Agent.execute_task agent task_prompt context
                       (Some tools)));
  me ← get_task self;
  let out := TaskOutput.mk (description me) result in
  modify (λ w, set_tasks (<[self := with_output (Some out) me]> (tasks w)) w);;
  (match callback me with
   | Some cb => modify (log (Callback cb out))
   | None => ret ()
   end);;
  ret result.

(** A worker runs [_execute] with the arguments it was started with; an
    exception ends the worker and goes no further. *)
Definition run_thread (x : tid) (w : world) : world :=
  match threads w !! x with
  | Some th =>
      if finished th then w
      else
        snd (_execute (target th) (th_agent th) (th_prompt th)
               (th_context th) (th_tools th)
               (set_threads (<[x := finish th]> (threads w)) w))
  | None => w
  end.

Definition run_threads (l : list tid) (w : world) : world :=
  foldl (λ w x, run_thread x w) w l.

(** A schedule lists, for each point at which the executing task can be
    overtaken, the workers that run to completion there. *)
Definition schedule : Type := list (list tid).

Definition yield (sch : schedule) : M schedule := λ w,
  (Ret (tail sch), run_threads (hd [] sch) w).

(** [thread.join()]: returns once the worker has completed. *)
Definition join_thread (h : option tid) : M unit :=
  match h with
  | None => raise (AttributeError "join")
  | Some x => modify (run_thread x)
  end.

(** One iteration of the context loop of [execute]. *)
Definition read_upstream (sch : schedule) (task : ref) : M (schedule * string) :=
  sch ← yield sch;
  up ← get_task task;
  (if flag (async_execution up) then join_thread (thread up) else ret ());;
  sch ← yield sch;
  up ← get_task task;
  match output up with
  | Some o => ret (sch, TaskOutput.result o)
  | None => raise (AttributeError "result")
  end.

Fixpoint gather (sch : schedule) (l : list ref) : M (schedule * list string) :=
  match l with
  | [] => ret (sch, [])
  | task :: l' =>
      '(sch, r) ← read_upstream sch task;
      '(sch, rs) ← gather sch l';
      ret (sch, r :: rs)
  end.

Definition no_agent_message (description : string) : string :=
  "The task '" +:+ description +:+
  "' has no agent assigned, therefore it can't be executed directly and should be executed in a Crew using a specific process that support that, like hierarchical.".

(** [a or b] on optional objects that are truthy when present. *)
Definition or_else {A} (a b : option A) : option A :=
  match a with Some _ => a | None => b end.

(** [a or b] on an optional list: [None] and [[]] are falsy. *)
Definition list_or {A} (a : option (list A)) (b : list A) : list A :=
  match a with
  | Some (x :: l) => x :: l
  | _ => b
  end.

(** [execute] up to the point where the backend call is set up: the
    agent, prompt, context and tools it will be made with. *)
Definition execute_args (sch : schedule) (self : ref)
    (agent : option Agent.t) (context : option string)
    (tools : option (list Tool.t))
  : M (schedule * (Agent.t * string * option string * list Tool.t)) :=
  me ← get_task self;
  match or_else agent (Task.agent me) with
  | None => raise (Exception (no_agent_message (description me)))
  | Some agent =>
      '(sch, context) ←
        (match Task.context me with
         | Some (task :: l) =>
             '(sch, rs) ← gather sch (task :: l);
             ret (sch, Some (join newline rs))
         | _ => ret (sch, context)
         end);
      me ← get_task self;
      let tools := list_or tools (Task.tools me) in
      prompt ← lift (_prompt me);
      ret (sch, (agent, prompt, context, tools))
  end.

Definition execute (sch : schedule) (self : ref)
    (agent : option Agent.t) (context : option string)
    (tools : option (list Tool.t)) : M (option string) :=
  '(sch, (agent, prompt, context, tools)) ←
    execute_args sch self agent context tools;
  me ← get_task self;
  if flag (async_execution me) then
    w ← ((λ w, (Ret w, w)) : M world);
    let x := length (threads w) in
    modify (λ w, set_threads
                   (threads w ++
                    [mkThread self agent prompt context tools false]) w);;
    modify (λ w, set_tasks
                   (<[self := with_thread (Some x) me]> (tasks w)) w);;
    ret None
  else
    result ← _execute self agent prompt context tools;
    ret (Some result).
End Task.

(** * Vocabulary of the properties *)

(** Text without [{] or [}]. *)
Definition brace_free (s : string) : Prop :=
  count_char "{" s = 0 ∧ count_char "}" s = 0.

(** The tool names [on_tool_start] does not record. *)
Definition reserved : list PyVal :=
  [PyStr "invalid_tool"; PyStr "_Exception"].

(** The substrings [on_tool_end] takes for a failed tool call. *)
Definition failure_signals : list string :=
  ["is not a valid tool"; "Invalid or incomplete response"; "Invalid Format"].

(** A sequence of [on_tool_start] calls, each a pair of [serialized] and
    [input_str]. *)
Definition replay (h : ToolsHandler.t)
    (calls : list (gmap string PyVal * string)) : ToolsHandler.t :=
  foldl (λ h c, ToolsHandler.on_tool_start h c.1 c.2) h calls.

(** Computations that never raise the configuration error. *)
Definition never_config {A} (m : Task.M A) : Prop :=
  ∀ w msg, fst (m w) ≠ Raise (Exception msg).

(** The backend call [_execute] makes. *)
Definition backend_call (agent : Agent.t) (prompt : string)
    (context : option string) (tools : list Tool.t) : outcome string :=
  Agent.call (Agent.execute_task agent prompt context (Some tools)).

(** The output a worker writes, if its backend call returns. *)
Definition written (th : Task.Thread) (me : Task.t) : Task.t :=
  match backend_call (Task.th_agent th) (Task.th_prompt th)
          (Task.th_context th) (Task.th_tools th) with
  | Ret res =>
      Task.with_output (Some (TaskOutput.mk (Task.description me) res)) me
  | Raise _ => me
  end.

(** Worker [x] exists and has not completed. *)
Definition alive (w : Task.world) (x : Task.tid) (th : Task.Thread) : Prop :=
  Task.threads w !! x = Some th ∧ Task.finished th = false.

(** The fields of a task other than [output] never change. *)
Definition same_static (a b : Task.t) : Prop :=
  b = Task.with_output (Task.output b) a.

(** No unfinished worker will write to [u] any more. *)
Definition settled (w : Task.world) (u : Task.ref) : Prop :=
  ∀ x th, alive w x th → Task.target th ≠ u.

(** Every unfinished worker that will write to one of the tasks [ups] is
    the worker that task holds the handle of, and the task is
    asynchronous: the state of affairs as long as no task of [ups] is
    executed a second time while its first execution is still running. *)
Definition no_orphans (w : Task.world) (ups : list Task.ref) : Prop :=
  ∀ u x th, u ∈ ups → alive w x th → Task.target th = u →
    ∃ up, Task.tasks w !! u = Some up
          ∧ Task.flag (Task.async_execution up) = true
          ∧ Task.thread up = Some x.

(** The worker [h] has run to completion. *)
Definition completed (w : Task.world) (h : Task.tid) : Prop :=
  ∃ th, Task.threads w !! h = Some th ∧ Task.finished th = true.

(** The asynchronous task stored at [u] holds the handle of an existing
    worker [h]. *)
Definition handle_of (w : Task.world) (u : Task.ref) (h : Task.tid) : Prop :=
  ∃ up, Task.tasks w !! u = Some up
        ∧ Task.flag (Task.async_execution up) = true
        ∧ Task.thread up = Some h
        ∧ is_Some (Task.threads w !! h).

(** [task.output.result] on the task stored at [u]. *)
Definition read_output (o : option Task.t) : outcome string :=
  match o with
  | None => Raise DanglingRef
  | Some up =>
      match Task.output up with
      | Some out => Ret (TaskOutput.result out)
      | None => Raise (AttributeError "result")
      end
  end.

(** What one iteration of the context loop reads for [u] when started in
    [w] and not overtaken by any other worker. *)
Definition upstream_value (u : Task.ref) (w : Task.world) : outcome string :=
  snd <$> fst (Task.read_upstream [] u w).

(** [execute] with a resolved agent, step by step. *)
Definition execute_with (sch : Task.schedule) (self : Task.ref)
    (me : Task.t) (a : Agent.t) (context : option string)
    (tools : option (list Tool.t))
  : Task.M (Task.schedule
            * (Agent.t * string * option string * list Tool.t)) :=
  '(sch, context) ←
    (match Task.context me with
     | Some (task :: l) =>
         '(sch, rs) ← Task.gather sch (task :: l);
         Task.ret (sch, Some (join newline rs))
     | _ => Task.ret (sch, context)
     end);
  me ← Task.get_task self;
  prompt ← Task.lift (Task._prompt me);
  Task.ret (sch, (a, prompt, context, Task.list_or tools (Task.tools me))).

(** Resolution with the override first: the override when supplied, else
    the stored value. *)
Definition override_first {A} (override stored : option A) : option A :=
  match override with
  | Some x => Some x
  | None => stored
  end.

(** ** A scenario: two upstream tasks and a dependent one *)

Module Scenario.
Definition i18n : I18N.t :=
  I18N.mk (λ _, "Expected output: {expected_output}") (λ k, k) (λ k, k).

Definition search : Tool.t := Tool.mk "search" "web search".

(** A backend that answers "B" and one that echoes the context. *)
Definition oracle : Agent.t := Agent.mk "Oracle" [] (λ _ _ _, inl "B").

Definition writer : Agent.t :=
  Agent.mk "Writer" [search] (λ _ context _, inl (default "none" context)).

(** T1 is synchronous and has produced "A"; T2 is asynchronous, its
    worker (thread 0) is still running and will produce "B"; T3 depends
    on both, in this order. *)
Definition T1 : Task.t :=
  Task.mk i18n None "first" None None None None (Some false)
    (Some (TaskOutput.mk "first" "A")) [].

Definition T2 : Task.t :=
  Task.mk i18n (Some 0) "second" None (Some oracle) None None (Some true)
    None [].

Definition T3 : Task.t :=
  Task.mk i18n None "third" None (Some writer) None (Some [0; 1])
    (Some false) None [search].

(** A task with no agent. *)
Definition T4 : Task.t :=
  Task.mk i18n None "fourth" None None None None (Some false) None [].

Definition w0 : Task.world :=
  Task.mkWorld (<[0 := T1]> (<[1 := T2]> (<[2 := T3]> (<[3 := T4]> ∅))))
    [Task.mkThread 1 oracle "second" None [] false] [].
End Scenario.

(** * More of the code, and the vocabulary of its properties *)

(** ** The handler under a stream of callbacks *)

(** The callbacks the execution backend sends a [ToolsHandler]. *)
Inductive tool_event : Type :=
| ToolStart (serialized : gmap string PyVal) (input_str : string)
| ToolEnd (output : string).

(** One callback; an exception raised by [on_tool_end] leaves the handler
    as it was. *)
Definition handle (CacheTools_name : string) (h : ToolsHandler.t)
    (e : tool_event) : ToolsHandler.t :=
  match e with
  | ToolStart serialized input_str =>
      ToolsHandler.on_tool_start h serialized input_str
  | ToolEnd output => (ToolsHandler.on_tool_end CacheTools_name h output).2
  end.

Definition handle_all (CacheTools_name : string) (h : ToolsHandler.t)
    (es : list tool_event) : ToolsHandler.t :=
  foldl (handle CacheTools_name) h es.

(** A start that [on_tool_start] records. *)
Definition qualifies (e : tool_event) : bool :=
  match e with
  | ToolStart serialized _ =>
      negb (ToolsHandler.py_in (ToolsHandler.dict_get serialized "name")
              [PyStr "invalid_tool"; PyStr "_Exception"])
  | ToolEnd _ => false
  end.

(** The record [on_tool_start] writes. *)
Definition tools_usage (name : PyVal) (input_str : string)
  : gmap string PyVal :=
  <["tool" := name]> (<["input" := PyStr input_str]> ∅).

(** The pair (tool, input) was recorded by a start among [es]. *)
Definition from_start (es : list tool_event) (tool : PyVal)
    (input_str : string) : Prop :=
  ∃ serialized, ToolStart serialized input_str ∈ es
                ∧ ToolsHandler.dict_get serialized "name" = tool
                ∧ tool ∉ reserved.

(** What can be said of every [add] a handler makes while it receives
    [es]. *)
Definition sound_add (CacheTools_name : string) (es : list tool_event)
    (call : PyVal * PyVal * string) : Prop :=
  let '(tool, input, output) := call in
  tool ≠ PyStr CacheTools_name
  ∧ ToolsHandler.no_failure_signal output = true
  ∧ ToolEnd output ∈ es
  ∧ ∃ input_str, input = PyStr input_str ∧ from_start es tool input_str.

(** ** The tools [AgentTools] offers *)

Module DelegationTool.
(** What [Tool.from_function(func, name, description)] builds. *)
Record t : Type := mk {
  func : string → outcome string;
  name : string;
  description : string
}.
End DelegationTool.

Module AgentToolsList.
(** [AgentTools.tools]: the two tools, built in this order; formatting a
    description can raise. *)
Definition tools (self : AgentTools.t) : outcome (list DelegationTool.t) :=
  d1 ← str_format (I18N.tools (AgentTools.i18n self) "delegate_work")
         [("coworkers",
           join ", " (Agent.role <$> AgentTools.agents self))];
  let t1 := DelegationTool.mk (AgentTools.delegate_work self)
              "Delegate work to co-worker" d1 in
  d2 ← str_format (I18N.tools (AgentTools.i18n self) "ask_question")
         [("coworkers",
           join ", " (Agent.role <$> AgentTools.agents self))];
  let t2 := DelegationTool.mk (AgentTools.ask_question self)
              "Ask question to co-worker" d2 in
  Ret [t1; t2].
End AgentToolsList.

(** ** Worlds in which every task has at most one running worker *)

(** Every unfinished worker is the worker whose handle its task holds,
    and that task is asynchronous. *)
Definition single_worker (w : Task.world) : Prop :=
  ∀ ups, no_orphans w ups.

(** The world [execute] leaves when it starts a worker for [self]. *)
Definition spawned (self : Task.ref) (me : Task.t) (a : Agent.t) (p : string)
    (c : option string) (tl : list Tool.t) (w : Task.world) : Task.world :=
  Task.set_tasks
    (<[self := Task.with_thread (Some (length (Task.threads w))) me]>
       (Task.tasks w))
    (Task.set_threads
       (Task.threads w ++ [Task.mkThread self a p c tl false]) w).

(** The events one run of [_execute] adds to the trace. *)
Definition execution_events (a : Agent.t) (p : string) (c : option string)
    (tl : list Tool.t) (me : Task.t) : list Task.event :=
  Task.ExecuteTask (Agent.role a) p c (Some tl)
  :: match backend_call a p c tl, Task.callback me with
     | Ret res, Some cb =>
         [Task.Callback cb (TaskOutput.mk (Task.description me) res)]
     | _, _ => []
     end.

(** ** More scenarios *)

Module Pipeline.
(** A backend that raises. *)
Definition grumpy : Agent.t := Agent.mk "Grumpy" [] (λ _ _ _, inr "boom").

(** A synchronous task whose backend raises, alone in the store. *)
Definition failing : Task.t :=
  Task.mk Scenario.i18n None "fifth" (Some "notify") (Some grumpy) None None
    (Some false) None [].

Definition w_failing : Task.world := Task.mkWorld {[0 := failing]} [] [].

(** An asynchronous task, not started yet, and a task that depends on
    it. *)
Definition upstream : Task.t :=
  Task.mk Scenario.i18n None "up" None (Some Scenario.oracle) None None
    (Some true) None [].

Definition dependent : Task.t :=
  Task.mk Scenario.i18n None "down" (Some "notify") (Some Scenario.writer)
    None (Some [0]) (Some false) None [].

Definition w_chain : Task.world :=
  Task.mkWorld (<[0 := upstream]> (<[1 := dependent]> ∅)) [] [].

(** A task that depends on T1, which has its output, and on T4, which was
    never executed. *)
Definition stuck : Task.t :=
  Task.mk Scenario.i18n None "stuck" None (Some Scenario.writer) None
    (Some [0; 3]) (Some false) None [].

Definition w_stuck : Task.world :=
  Task.set_tasks (<[4 := stuck]> (Task.tasks Scenario.w0)) Scenario.w0.

(** An asynchronous task whose worker is running and will fail. *)
Definition doomed : Task.t :=
  Task.mk Scenario.i18n (Some 0) "doomed" None (Some grumpy) None None
    (Some true) None [].

Definition w_doomed : Task.world :=
  Task.mkWorld {[0 := doomed]} [Task.mkThread 0 grumpy "doomed" None [] false]
    [].
End Pipeline.

(** * Properties *)

(** ** Strings *)

Lemma app_nil_l (s : string) : "" +:+ s = s.
Proof. reflexivity. Qed.

Lemma app_cons (c : ascii) (s t : string) :
  String c s +:+ t = String c (s +:+ t).
Proof. reflexivity. Qed.

Lemma app_nil_r (s : string) : s +:+ "" = s.
Proof. induction s as [|c s IH]; [done|]. by rewrite app_cons, IH. Qed.

Lemma app_assoc (a b c : string) : (a +:+ b) +:+ c = a +:+ b +:+ c.
Proof. induction a as [|x a IH]; [done|]. by rewrite !app_cons, IH. Qed.

Lemma prefix_app (sub post : string) : String.prefix sub (sub +:+ post) = true.
Proof.
  induction sub as [|c sub IH]; [by destruct post|].
  rewrite app_cons. simpl.
  destruct (ascii_dec c c); [exact IH | congruence].
Qed.

Lemma prefix_inv (sub s : string) :
  String.prefix sub s = true → ∃ post, s = sub +:+ post.
Proof.
  revert s. induction sub as [|c sub IH]; intros s H.
  - by exists s.
  - destruct s as [|c' s]; simpl in H; [done|].
    destruct (ascii_dec c c') as [->|]; [|done].
    destruct (IH _ H) as [post ->]. by exists post.
Qed.

Lemma str_in_unfold (sub s : string) :
  str_in sub s =
  String.prefix sub s ||
  match s with EmptyString => false | String _ s' => str_in sub s' end.
Proof. by destruct s. Qed.

(** [str_in] is the substring test. *)
Lemma str_in_spec (sub s : string) :
  str_in sub s = true ↔ ∃ pre post, s = pre +:+ sub +:+ post.
Proof.
  split.
  - induction s as [|c s IH]; rewrite str_in_unfold; intros H;
      apply orb_true_iff in H as [H|H].
    + apply prefix_inv in H as [post ->]. by exists "", post.
    + done.
    + apply prefix_inv in H as [post ->]. by exists "", post.
    + destruct (IH H) as (pre & post & ->). by exists (String c pre), post.
  - intros (pre & post & ->). induction pre as [|c pre IH].
    + rewrite app_nil_l, str_in_unfold. by rewrite prefix_app.
    + rewrite app_cons, str_in_unfold, IH. apply orb_true_r.
Qed.

Lemma split_nonempty (sep : ascii) (s : string) : split sep s ≠ [].
Proof. induction s as [|c s IH]; simpl; [done|]. case_decide; [done|]. by destruct (split sep s). Qed.

Lemma split_length (sep : ascii) (s : string) :
  length (split sep s) = S (count_char sep s).
Proof.
  induction s as [|c s IH]; simpl; [done|].
  case_decide; simpl; [by rewrite IH|].
  pose proof (split_nonempty sep s). by destruct (split sep s).
Qed.

Lemma split_no_sep (sep : ascii) (s : string) :
  count_char sep s = 0 → split sep s = [s].
Proof.
  induction s as [|c s IH]; simpl; [done|].
  case_decide; [done|]. intros H0. by rewrite IH.
Qed.

Lemma split_app_sep (sep : ascii) (a rest : string) :
  count_char sep a = 0 →
  split sep (a +:+ String sep rest) = a :: split sep rest.
Proof.
  induction a as [|c a IH]; [rewrite app_nil_l|rewrite app_cons]; simpl.
  - intros _. by rewrite decide_True.
  - case_decide; [done|]. intros H0. by rewrite IH.
Qed.

(** Joining the pieces with the separator gives the string back. *)
Lemma join_split (sep : ascii) (s : string) :
  join (String sep "") (split sep s) = s.
Proof.
  induction s as [|c s IH]; simpl; [done|].
  pose proof (split_nonempty sep s) as Hne.
  case_decide as Hc.
  - subst c. destruct (split sep s) as [|p ps]; [done|].
    change (join (String sep "") ("" :: p :: ps))
      with (String sep (join (String sep "") (p :: ps))).
    by rewrite IH.
  - destruct (split sep s) as [|p ps]; [done|].
    destruct ps as [|q ps]; simpl in *; by rewrite <- IH.
Qed.

Lemma format_from_text (kw : kwargs) (pre rest : string) :
  brace_free pre →
  format_from kw None (pre +:+ rest)
  = (λ out, pre +:+ out) <$> format_from kw None rest.
Proof.
  intros [Ho Hc].
  induction pre as [|c pre IH]; [rewrite app_nil_l|rewrite app_cons];
    simpl in *.
  - by destruct (format_from kw None rest).
  - repeat case_decide; try done. simpl in *.
    rewrite IH by done. by destruct (format_from kw None rest).
Qed.

Lemma format_from_text_end (kw : kwargs) (post : string) :
  brace_free post → format_from kw None post = Ret post.
Proof.
  intros H. rewrite <- (app_nil_r post) at 1.
  rewrite format_from_text by done. simpl. by rewrite app_nil_r.
Qed.

Lemma format_from_field (kw : kwargs) (name acc rest : string) :
  brace_free name →
  format_from kw (Some acc) (name +:+ String "}" rest)
  = v ← field_value kw (acc +:+ name);
    (λ out, v +:+ out) <$> format_from kw None rest.
Proof.
  intros [Ho Hc]. revert acc.
  induction name as [|c name IH]; intros acc.
  - by rewrite app_nil_l, app_nil_r.
  - rewrite app_cons. simpl in *. repeat case_decide; try done.
    simpl in *. rewrite IH by done.
    by rewrite app_assoc.
Qed.

(** A template with one replacement field between brace-free texts. *)
Lemma str_format_one_field (kw : kwargs) (pre name post v : string) :
  brace_free pre → brace_free name → brace_free post → name ≠ "" →
  field_value kw name = Ret v →
  str_format (pre +:+ String "{" (name +:+ String "}" post)) kw
  = Ret (pre +:+ v +:+ post).
Proof.
  intros Hpre Hname Hpost Hne Hv. unfold str_format.
  rewrite format_from_text by done.
  destruct name as [|c name]; [done|].
  assert (c ≠ "{"%char) as Hc.
  { destruct Hname as [Ho _]. simpl in Ho. by case_decide. }
  change (format_from kw None (String "{" (String c name +:+ String "}" post)))
    with (if decide (c = "{"%char)
          then String "{"%char <$>
                 format_from kw None (name +:+ String "}" post)
          else format_from kw (Some "")
                 (String c name +:+ String "}" post)).
  rewrite decide_False by done.
  rewrite format_from_field by done. rewrite app_nil_l, Hv. simpl.
  by rewrite format_from_text_end.
Qed.

(** ** The tool-use interceptor *)

Section ToolsHandlerProperties.
Variable CacheTools_name : string.

Abbreviation on_tool_end := (ToolsHandler.on_tool_end CacheTools_name).

Lemma py_in_reserved (v : PyVal) :
  ToolsHandler.py_in v reserved = bool_decide (v ∈ reserved).
Proof.
  unfold reserved, ToolsHandler.py_in. simpl.
  repeat case_bool_decide; simpl; try done;
    rewrite ?elem_of_cons, elem_of_nil in *; tauto.
Qed.

(** A start with a name that is not reserved records the pair. *)
Lemma on_tool_start_records (h : ToolsHandler.t)
    (serialized : gmap string PyVal) (input_str : string) :
  ToolsHandler.dict_get serialized "name" ∉ reserved →
  ToolsHandler.on_tool_start h serialized input_str
  = ToolsHandler.mk
      (<["tool" := ToolsHandler.dict_get serialized "name"]>
         (<["input" := PyStr input_str]> ∅))
      (ToolsHandler.cache h).
Proof.
  intros H. unfold ToolsHandler.on_tool_start.
  change [PyStr "invalid_tool"; PyStr "_Exception"] with reserved.
  by rewrite py_in_reserved, bool_decide_eq_false_2.
Qed.

(** A start with a reserved name changes nothing. *)
Lemma on_tool_start_reserved (h : ToolsHandler.t)
    (serialized : gmap string PyVal) (input_str : string) :
  ToolsHandler.dict_get serialized "name" ∈ reserved →
  ToolsHandler.on_tool_start h serialized input_str = h.
Proof.
  intros H. unfold ToolsHandler.on_tool_start.
  change [PyStr "invalid_tool"; PyStr "_Exception"] with reserved.
  by rewrite py_in_reserved, bool_decide_eq_true_2.
Qed.

(** An end with a clean output writes the recorded pair. *)
Lemma on_tool_end_writes (h : ToolsHandler.t) (tool input : PyVal)
    (output : string) :
  ToolsHandler.last_used_tool h !! "tool" = Some tool →
  ToolsHandler.last_used_tool h !! "input" = Some input →
  ToolsHandler.no_failure_signal output = true →
  tool ≠ PyStr CacheTools_name →
  on_tool_end h output
  = (Ret (),
     ToolsHandler.mk (ToolsHandler.last_used_tool h)
       (CacheHandler.add tool input output (ToolsHandler.cache h))).
Proof.
  intros Ht Hi Ho Hn. unfold ToolsHandler.on_tool_end, ToolsHandler.dict_item.
  by rewrite Ho, Ht, Hi, bool_decide_eq_false_2.
Qed.

(** C2: a start with a tool name that is not reserved, followed by an end
    whose output carries no failure signal, when the name is not the
    cache-lookup tool's, returns normally and performs exactly one [add],
    of the triple (tool, input, output): the log of [add] calls grows by
    that one call and the store maps the pair to the output.  On a fresh
    handler over an empty store, the start for "Calculator" with input
    "6*7" followed by the end with "42" leaves exactly the one entry
    ("Calculator", "6*7") -> "42". *)
Theorem C2_start_end_adds_once (h : ToolsHandler.t)
    (serialized : gmap string PyVal) (name input output : string) :
  serialized !! "name" = Some (PyStr name) →
  name ≠ "invalid_tool" → name ≠ "_Exception" →
  str_in "is not a valid tool" output = false →
  str_in "Invalid or incomplete response" output = false →
  str_in "Invalid Format" output = false →
  name ≠ CacheTools_name →
  let h' := snd (on_tool_end
                   (ToolsHandler.on_tool_start h serialized input) output) in
  fst (on_tool_end (ToolsHandler.on_tool_start h serialized input) output)
    = Ret ()
  ∧ ToolsHandler.cache h'
    = CacheHandler.add (PyStr name) (PyStr input) output (ToolsHandler.cache h)
  ∧ CacheHandler.adds (ToolsHandler.cache h')
    = (CacheHandler.adds (ToolsHandler.cache h)
         ++ [(PyStr name, PyStr input, output)])%list
  ∧ CacheHandler.entries (ToolsHandler.cache h') !! (PyStr name, PyStr input)
    = Some output
  ∧ ("Calculator" ≠ CacheTools_name →
     ToolsHandler.cache
       (snd (on_tool_end
               (ToolsHandler.on_tool_start
                  (ToolsHandler.__init__ CacheHandler.empty)
                  {["name" := PyStr "Calculator"]} "6*7") "42"))
     = CacheHandler.mk {[(PyStr "Calculator", PyStr "6*7") := "42"]}
         [(PyStr "Calculator", PyStr "6*7", "42")]).
Proof.
  intros Hname Hr1 Hr2 Ho1 Ho2 Ho3 Hc h'.
  assert (∀ (h0 : ToolsHandler.t) ser (n i o : string),
            ser !! "name" = Some (PyStr n) →
            n ≠ "invalid_tool" → n ≠ "_Exception" →
            ToolsHandler.no_failure_signal o = true →
            n ≠ CacheTools_name →
            on_tool_end (ToolsHandler.on_tool_start h0 ser i) o
            = (Ret (),
               ToolsHandler.mk
                 (<["tool" := PyStr n]> (<["input" := PyStr i]> ∅))
                 (CacheHandler.add (PyStr n) (PyStr i) o
                    (ToolsHandler.cache h0)))) as Hgen.
  { intros h0 ser n i o Hser Hn1 Hn2 Hno Hnc.
    assert (ToolsHandler.dict_get ser "name" = PyStr n) as Hget
      by (unfold ToolsHandler.dict_get; by rewrite Hser).
    rewrite on_tool_start_records.
    2:{ rewrite Hget. unfold reserved. rewrite !elem_of_cons, elem_of_nil.
        intros [?|[?|[]]]; congruence. }
    rewrite Hget.
    rewrite (on_tool_end_writes _ (PyStr n) (PyStr i)); simpl.
    - done.
    - by rewrite lookup_insert_eq.
    - rewrite lookup_insert_ne by done. by rewrite lookup_insert_eq.
    - done.
    - congruence. }
  assert (ToolsHandler.no_failure_signal output = true) as Hno
    by (unfold ToolsHandler.no_failure_signal; by rewrite Ho1, Ho2, Ho3).
  subst h'. rewrite (Hgen h serialized name input output) by done. simpl.
  split_and!; try done; try by rewrite lookup_insert_eq.
  intros Hcalc. by rewrite (Hgen _ _ "Calculator" "6*7" "42").
Qed.

Lemma failure_signal_detected (sig pre post : string) :
  sig ∈ failure_signals →
  ToolsHandler.no_failure_signal (pre +:+ sig +:+ post) = false.
Proof.
  intros Hsig.
  assert (str_in sig (pre +:+ sig +:+ post) = true) as Hin
    by (apply str_in_spec; eauto).
  unfold ToolsHandler.no_failure_signal, failure_signals in *.
  rewrite !elem_of_cons, elem_of_nil in Hsig.
  destruct Hsig as [->|[->|[->|[]]]]; rewrite Hin; simpl;
    by rewrite ?andb_false_r.
Qed.

(** C5: an end whose output contains "Invalid Format", "is not a valid
    tool" or "Invalid or incomplete response" returns normally and leaves
    the handler, hence the Cache Store and its log of [add] calls, as they
    were, whatever the last-used-tool record holds. *)
Theorem C5_failure_output_not_cached (h : ToolsHandler.t)
    (sig pre post : string) :
  sig ∈ failure_signals →
  on_tool_end h (pre +:+ sig +:+ post) = (Ret (), h)
  ∧ CacheHandler.adds
      (ToolsHandler.cache (snd (on_tool_end h (pre +:+ sig +:+ post))))
    = CacheHandler.adds (ToolsHandler.cache h).
Proof.
  intros Hsig. unfold ToolsHandler.on_tool_end.
  by rewrite failure_signal_detected.
Qed.

Lemma replay_reserved (h : ToolsHandler.t)
    (calls : list (gmap string PyVal * string)) :
  Forall (λ c, ToolsHandler.dict_get c.1 "name" ∈ reserved) calls →
  replay h calls = h.
Proof.
  induction 1 as [|c calls Hc _ IH]; [done|].
  unfold replay in *. simpl. by rewrite on_tool_start_reserved.
Qed.

(** C9: on a handler just constructed, on which only starts with a
    reserved name (if any) have run, an end whose output carries no
    failure signal raises [KeyError] on the key "tool"; nothing is written
    to the Cache Store. *)
Theorem C9_end_before_start_raises (cache : CacheHandler.t)
    (calls : list (gmap string PyVal * string)) (output : string) :
  Forall (λ c, ToolsHandler.dict_get c.1 "name" ∈ reserved) calls →
  str_in "is not a valid tool" output = false →
  str_in "Invalid or incomplete response" output = false →
  str_in "Invalid Format" output = false →
  on_tool_end (replay (ToolsHandler.__init__ cache) calls) output
  = (Raise (KeyError "tool"), ToolsHandler.__init__ cache).
Proof.
  intros Hcalls Ho1 Ho2 Ho3. rewrite replay_reserved by done.
  unfold ToolsHandler.on_tool_end, ToolsHandler.no_failure_signal.
  by rewrite Ho1, Ho2, Ho3.
Qed.

(** C10, as amended: a start with a reserved name ("invalid_tool" or
    "_Exception") leaves the handler, and so the last-used-tool record,
    unchanged; after a start that recorded (T, I), with T other than the
    cache-lookup tool's name, a start with a reserved name and then an
    end with a clean output O write the stale pair with the new output,
    (T, I) -> O, into the Cache Store. *)
Theorem C10_reserved_start_keeps_record (h : ToolsHandler.t)
    (serialized_r serialized_t : gmap string PyVal) (input_r : string)
    (T : PyVal) (I O : string) :
  ToolsHandler.dict_get serialized_r "name" ∈ reserved →
  serialized_t !! "name" = Some T →
  T ∉ reserved →
  T ≠ PyStr CacheTools_name →
  str_in "is not a valid tool" O = false →
  str_in "Invalid or incomplete response" O = false →
  str_in "Invalid Format" O = false →
  ToolsHandler.on_tool_start h serialized_r input_r = h
  ∧ ToolsHandler.last_used_tool
      (ToolsHandler.on_tool_start h serialized_r input_r)
    = ToolsHandler.last_used_tool h
  ∧ on_tool_end
      (ToolsHandler.on_tool_start
         (ToolsHandler.on_tool_start h serialized_t I)
         serialized_r input_r) O
    = (Ret (),
       ToolsHandler.mk
         (<["tool" := T]> (<["input" := PyStr I]> ∅))
         (CacheHandler.add T (PyStr I) O (ToolsHandler.cache h))).
Proof.
  intros Hr Ht Hnr Hnc Ho1 Ho2 Ho3.
  rewrite !on_tool_start_reserved by done. split_and!; [done..|].
  assert (ToolsHandler.dict_get serialized_t "name" = T) as Hget
    by (unfold ToolsHandler.dict_get; by rewrite Ht).
  rewrite on_tool_start_records by (by rewrite Hget). rewrite Hget.
  rewrite (on_tool_end_writes _ T (PyStr I)); simpl.
  - done.
  - by rewrite lookup_insert_eq.
  - rewrite lookup_insert_ne by done. by rewrite lookup_insert_eq.
  - unfold ToolsHandler.no_failure_signal. by rewrite Ho1, Ho2, Ho3.
  - done.
Qed.

End ToolsHandlerProperties.

Lemma C2_witness :
  CacheHandler.adds
    (ToolsHandler.cache
       (snd (ToolsHandler.on_tool_end "Hit Cache"
               (ToolsHandler.on_tool_start
                  (ToolsHandler.__init__ CacheHandler.empty)
                  {["name" := PyStr "Calculator"]} "6*7") "42")))
  = [(PyStr "Calculator", PyStr "6*7", "42")].
Proof.
  refine (proj1 (proj2 (proj2
    (C2_start_end_adds_once "Hit Cache"
       (ToolsHandler.__init__ CacheHandler.empty)
       {["name" := PyStr "Calculator"]} "Calculator" "6*7" "42"
       _ _ _ _ _ _ _)))); try reflexivity; discriminate.
Defined.

Lemma C5_witness :
  ToolsHandler.on_tool_end "Hit Cache"
    (ToolsHandler.mk
       (<["tool" := PyStr "Calculator"]> (<["input" := PyStr "6*7"]> ∅))
       CacheHandler.empty)
    "Error: Invalid Format, retry"
  = (Ret (),
     ToolsHandler.mk
       (<["tool" := PyStr "Calculator"]> (<["input" := PyStr "6*7"]> ∅))
       CacheHandler.empty).
Proof.
  refine (proj1 (C5_failure_output_not_cached "Hit Cache" _
                   "Invalid Format" "Error: " ", retry" _)).
  unfold failure_signals. rewrite !elem_of_cons. auto.
Defined.

Lemma C9_witness :
  ToolsHandler.on_tool_end "Hit Cache"
    (replay (ToolsHandler.__init__ CacheHandler.empty)
       [({["name" := PyStr "invalid_tool"]}, "x")]) "42"
  = (Raise (KeyError "tool"), ToolsHandler.__init__ CacheHandler.empty).
Proof.
  apply (C9_end_before_start_raises "Hit Cache" CacheHandler.empty
           [({["name" := PyStr "invalid_tool"]}, "x")] "42");
    try reflexivity.
  repeat constructor.
Defined.

(** C10 as stated fails when the recorded tool is the cache-lookup tool:
    the record is kept across the start with a reserved name, but the end
    that follows writes nothing, by the guard of [on_tool_end]. *)
Lemma C10_counterexample :
  ToolsHandler.last_used_tool
    (ToolsHandler.on_tool_start
       (ToolsHandler.on_tool_start
          (ToolsHandler.__init__ CacheHandler.empty)
          {["name" := PyStr "Hit Cache"]} "6*7")
       {["name" := PyStr "_Exception"]} "boom")
  = <["tool" := PyStr "Hit Cache"]> (<["input" := PyStr "6*7"]> ∅)
  ∧ ToolsHandler.no_failure_signal "42" = true
  ∧ ToolsHandler.on_tool_end "Hit Cache"
      (ToolsHandler.on_tool_start
         (ToolsHandler.on_tool_start
            (ToolsHandler.__init__ CacheHandler.empty)
            {["name" := PyStr "Hit Cache"]} "6*7")
         {["name" := PyStr "_Exception"]} "boom") "42"
    = (Ret (),
       ToolsHandler.mk
         (<["tool" := PyStr "Hit Cache"]> (<["input" := PyStr "6*7"]> ∅))
         CacheHandler.empty)
  ∧ CacheHandler.adds
      (ToolsHandler.cache
         (ToolsHandler.on_tool_end "Hit Cache"
            (ToolsHandler.on_tool_start
               (ToolsHandler.on_tool_start
                  (ToolsHandler.__init__ CacheHandler.empty)
                  {["name" := PyStr "Hit Cache"]} "6*7")
               {["name" := PyStr "_Exception"]} "boom") "42").2)
    ≠ [(PyStr "Hit Cache", PyStr "6*7", "42")].
Proof. split_and!; [reflexivity..|discriminate]. Qed.

Lemma C10_witness :
  ToolsHandler.on_tool_end "Hit Cache"
    (ToolsHandler.on_tool_start
       (ToolsHandler.on_tool_start
          (ToolsHandler.__init__ CacheHandler.empty)
          {["name" := PyStr "Calculator"]} "6*7")
       {["name" := PyStr "_Exception"]} "boom") "oops"
  = (Ret (),
     ToolsHandler.mk
       (<["tool" := PyStr "Calculator"]> (<["input" := PyStr "6*7"]> ∅))
       (CacheHandler.add (PyStr "Calculator") (PyStr "6*7") "oops"
          CacheHandler.empty)).
Proof.
  refine (proj2 (proj2
    (C10_reserved_start_keeps_record "Hit Cache"
       (ToolsHandler.__init__ CacheHandler.empty)
       {["name" := PyStr "_Exception"]} {["name" := PyStr "Calculator"]}
       "boom" (PyStr "Calculator") "6*7" "oops" _ _ _ _ _ _ _)));
    try reflexivity; try discriminate.
  - unfold reserved. cbn. rewrite !elem_of_cons. auto.
  - unfold reserved. rewrite !elem_of_cons, elem_of_nil.
    intros [?|[?|[]]]; discriminate.
Defined.

(** ** The delegation tools *)

Lemma elem_of_three (x a b c : string) :
  x ∈ [a; b; c] ↔ x = a ∨ x = b ∨ x = c.
Proof. rewrite !elem_of_cons, elem_of_nil. tauto. Qed.

(** C6: [delegate_work] and [ask_question] take a command apart at the
    separator "|": there are three parts exactly when the command holds
    two separators.  A command that does not hold exactly two separators,
    or one of whose parts is empty, makes both return the localized
    "agent_tool_missing_param" error string as their value; neither
    raises. *)
Theorem C6_malformed_command_returns_error (self : AgentTools.t)
    (command : string) :
  count_char "|" command ≠ 2 ∨ "" ∈ split "|" command →
  (length (split "|" command) = 3 ↔ count_char "|" command = 2)
  ∧ AgentTools.delegate_work self command
    = Ret (I18N.errors (AgentTools.i18n self) "agent_tool_missing_param")
  ∧ AgentTools.ask_question self command
    = Ret (I18N.errors (AgentTools.i18n self) "agent_tool_missing_param").
Proof.
  intros Hbad.
  assert (length (split "|" command) = 3 ↔ count_char "|" command = 2)
    as Hlen by (rewrite split_length; lia).
  split; [done|].
  unfold AgentTools.ask_question, AgentTools.delegate_work.
  assert (AgentTools._execute self command
          = Ret (I18N.errors (AgentTools.i18n self)
                   "agent_tool_missing_param")) as ->; [|done].
  unfold AgentTools._execute.
  destruct (split "|" command) as [|a [|t [|c [|? ?]]]] eqn:Hs; try done.
  destruct Hbad as [Hcount|Hin].
  - simpl in Hlen. lia.
  - apply elem_of_three in Hin.
    destruct Hin as [<-|[<-|<-]]; simpl; by rewrite ?orb_true_r.
Qed.

Lemma C6_witness :
  AgentTools.delegate_work
    (AgentTools.mk [] (I18N.mk (λ k, k) (λ k, k) (λ k, k)))
    "Researcher||background info"
  = Ret "agent_tool_missing_param".
Proof.
  refine (proj1 (proj2
    (C6_malformed_command_returns_error
       (AgentTools.mk [] (I18N.mk (λ k, k) (λ k, k) (λ k, k)))
       "Researcher||background info" _))).
  right.
  change (split "|" "Researcher||background info")
    with ["Researcher"; ""; "background info"].
  apply elem_of_three. auto.
Defined.

Lemma split_well_formed (agentRole task context : string) :
  count_char "|" agentRole = 0 → count_char "|" task = 0 →
  count_char "|" context = 0 →
  split "|" (agentRole +:+ "|" +:+ task +:+ "|" +:+ context)
  = [agentRole; task; context].
Proof.
  intros Ha Ht Hc.
  change ("|" +:+ task +:+ "|" +:+ context)
    with (String "|" (task +:+ String "|" context)).
  rewrite split_app_sep by done. rewrite split_app_sep by done.
  by rewrite split_no_sep.
Qed.

Lemma filter_role_none (agentRole : string) (l : list Agent.t) :
  Forall (λ a, Agent.role a ≠ agentRole) l →
  filter (λ a, Agent.role a = agentRole) l = [].
Proof.
  induction 1 as [|a l Ha _ IH]; [done|].
  by rewrite filter_cons_False.
Qed.

(** C7: for a well-formed command "agentRole|task|context" (three
    non-empty parts free of "|") both tools behave alike.  When no known
    agent has role agentRole, the value is the "agent_tool_unexsiting_coworker"
    format string with its [coworkers] field replaced by the known roles
    joined by ", "; for a template of the form [pre{coworkers}post] this
    is the string [pre ++ roles ++ post], returned and not raised.  When
    some agent has that role, the first such agent's [execute_task] is
    called with exactly (task, context) and what it returns is returned
    unchanged. *)
Theorem C7_delegation_resolves_first_match (self : AgentTools.t)
    (agentRole task context : string) :
  agentRole ≠ "" → task ≠ "" → context ≠ "" →
  count_char "|" agentRole = 0 → count_char "|" task = 0 →
  count_char "|" context = 0 →
  let command := agentRole +:+ "|" +:+ task +:+ "|" +:+ context in
  let roles := join ", " (Agent.role <$> AgentTools.agents self) in
  let template :=
    I18N.errors (AgentTools.i18n self) "agent_tool_unexsiting_coworker" in
  AgentTools.ask_question self command
  = AgentTools.delegate_work self command
  ∧ (Forall (λ a, Agent.role a ≠ agentRole) (AgentTools.agents self) →
     AgentTools.delegate_work self command
     = str_format template [("coworkers", roles)]
     ∧ ∀ pre post,
         template = pre +:+ "{coworkers}" +:+ post →
         brace_free pre → brace_free post →
         AgentTools.delegate_work self command
         = Ret (pre +:+ roles +:+ post))
  ∧ (∀ before a after,
       AgentTools.agents self = (before ++ a :: after)%list →
       Forall (λ a, Agent.role a ≠ agentRole) before →
       Agent.role a = agentRole →
       AgentTools.delegate_work self command
       = Agent.call (Agent.execute_task a task (Some context) None)
       ∧ ∀ r, Agent.execute_task a task (Some context) None = inl r →
              AgentTools.delegate_work self command = Ret r).
Proof.
  intros Ha Ht Hc Hsa Hst Hsc command roles template.
  unfold AgentTools.ask_question, AgentTools.delegate_work.
  assert (AgentTools._execute self command
          = match filter (λ a, Agent.role a = agentRole)
                    (AgentTools.agents self) with
            | [] => str_format template [("coworkers", roles)]
            | a :: _ =>
                Agent.call (Agent.execute_task a task (Some context) None)
            end) as Hexec.
  { unfold AgentTools._execute. subst command.
    rewrite split_well_formed by done.
    by rewrite !bool_decide_eq_false_2. }
  split_and!; [done| |].
  - intros Hnone. rewrite Hexec, filter_role_none by done.
    split; [done|]. intros pre post Htpl Hpre Hpost. rewrite Htpl.
    change (pre +:+ "{coworkers}" +:+ post)
      with (pre +:+ String "{" ("coworkers" +:+ String "}" post)).
    by apply str_format_one_field.
  - intros before a after Hagents Hbefore Hrole.
    rewrite Hexec, Hagents, list.filter_app, filter_role_none by done.
    rewrite filter_cons_True by done. simpl.
    split; [done|]. by intros r ->.
Qed.

Lemma C7_witness :
  AgentTools.delegate_work
    (AgentTools.mk
       [Agent.mk "Writer" [] (λ _ _ _, inl "written");
        Agent.mk "Researcher" []
          (λ task context _, inl (task +:+ "/" +:+ default "" context));
        Agent.mk "Researcher" [] (λ _ _ _, inr "unreachable")]
       (I18N.mk (λ k, k) (λ k, k) (λ k, k)))
    "Researcher|find facts|background info"
  = Ret "find facts/background info".
Proof.
  refine (proj2 (proj2 (proj2
    (C7_delegation_resolves_first_match
       (AgentTools.mk
          [Agent.mk "Writer" [] (λ _ _ _, inl "written");
           Agent.mk "Researcher" []
             (λ task context _, inl (task +:+ "/" +:+ default "" context));
           Agent.mk "Researcher" [] (λ _ _ _, inr "unreachable")]
          (I18N.mk (λ k, k) (λ k, k) (λ k, k)))
       "Researcher" "find facts" "background info" _ _ _ _ _ _))
    [Agent.mk "Writer" [] (λ _ _ _, inl "written")]
    (Agent.mk "Researcher" []
       (λ task context _, inl (task +:+ "/" +:+ default "" context)))
    [Agent.mk "Researcher" [] (λ _ _ _, inr "unreachable")]
    _ _ _) "find facts/background info" _);
    try reflexivity; try discriminate.
  repeat constructor. discriminate.
Defined.

(** ** Tasks *)

(** C8: validation at construction gives a task built with no tools and
    an agent that has tools exactly the agent's tools; a task built with
    tools, or without an agent, or with an agent that has no tools, is
    left as it was. *)
Theorem C8_tools_default_from_agent (fields : Task.t) :
  (∀ a, Task.tools fields = [] → Task.agent fields = Some a →
        Agent.tools a ≠ [] →
        Task.tools (Task.construct fields) = Agent.tools a
        ∧ Task.construct fields = Task.with_tools (Agent.tools a) fields)
  ∧ (Task.tools fields ≠ [] ∨ Task.agent fields = None
     ∨ (∃ a, Task.agent fields = Some a ∧ Agent.tools a = []) →
     Task.construct fields = fields).
Proof.
  unfold Task.construct, Task.check_tools. split.
  - intros a Ht Ha Hne. rewrite Ha, Ht.
    destruct (Agent.tools a); [done|]. by simpl.
  - intros [Ht|[Ha|(a & Ha & Hat)]].
    + destruct (Task.agent fields); [|done].
      by destruct (Task.tools fields).
    + by rewrite Ha.
    + rewrite Ha, Hat. by rewrite andb_false_r.
Qed.

Lemma C8_witness :
  Task.tools
    (Task.construct
       (Task.mk (I18N.mk (λ k, k) (λ k, k) (λ k, k)) None "summarise" None
          (Some (Agent.mk "Writer" [Tool.mk "search" "web search"]
                   (λ _ _ _, inl "ok")))
          None None (Some false) None []))
  = [Tool.mk "search" "web search"].
Proof.
  refine (proj1 (proj1
    (C8_tools_default_from_agent
       (Task.mk (I18N.mk (λ k, k) (λ k, k) (λ k, k)) None "summarise" None
          (Some (Agent.mk "Writer" [Tool.mk "search" "web search"]
                   (λ _ _ _, inl "ok")))
          None None (Some false) None []))
    (Agent.mk "Writer" [Tool.mk "search" "web search"] (λ _ _ _, inl "ok"))
    _ _ _)); [reflexivity..|discriminate].
Defined.

Lemma never_config_bind {A B} (m : Task.M A) (f : A → Task.M B) :
  never_config m → (∀ a, never_config (f a)) → never_config (m ≫= f).
Proof.
  intros Hm Hf w msg. unfold mbind, Task.M_bind, Task.bind.
  specialize (Hm w msg). destruct (m w) as [[a|e] w']; simpl in *.
  - apply Hf.
  - intros [= ->]. by apply Hm.
Qed.

Lemma never_config_ret {A} (a : A) : never_config (Task.ret a).
Proof. by intros w msg. Qed.

Lemma never_config_modify (f : Task.world → Task.world) :
  never_config (Task.modify f).
Proof. by intros w msg. Qed.

Lemma never_config_get_task (r : Task.ref) : never_config (Task.get_task r).
Proof. intros w msg. unfold Task.get_task. by destruct (Task.tasks w !! r). Qed.

Lemma never_config_yield (sch : Task.schedule) : never_config (Task.yield sch).
Proof. by intros w msg. Qed.

Lemma never_config_lift {A} (r : outcome A) :
  (∀ msg, r ≠ Raise (Exception msg)) → never_config (Task.lift r).
Proof. intros H w msg. apply H. Qed.

Lemma fmap_no_config {A B} (f : A → B) (r : outcome A) (msg : string) :
  r ≠ Raise (Exception msg) → f <$> r ≠ Raise (Exception msg).
Proof. destruct r as [a|e]; [done|]. intros H [= ->]. by apply H. Qed.

Lemma field_value_no_config (kw : kwargs) (field msg : string) :
  field_value kw field ≠ Raise (Exception msg).
Proof.
  unfold field_value. destruct (all_digits field); [done|].
  destruct (has_field_syntax field); [done|]. by destruct (kw_get field kw).
Qed.

Lemma format_from_no_config_aux (kw : kwargs) (msg : string) (s : string) :
  (∀ field, format_from kw field s ≠ Raise (Exception msg))
  ∧ (∀ c field, format_from kw field (String c s) ≠ Raise (Exception msg)).
Proof.
  induction s as [|c s [IH1 IH2]].
  - split; [by intros []|]. intros c [acc|]; simpl.
    + repeat case_decide; try done;
        [|by destruct (has_field_syntax acc)].
      pose proof (field_value_no_config kw acc msg).
      by destruct (field_value kw acc).
    + by repeat case_decide.
  - split; [apply IH2|]. intros c0 [acc|].
    + change (format_from kw (Some acc) (String c0 (String c s)))
        with (if decide (c0 = "}"%char) then
                v ← field_value kw acc;
                (λ rest, v +:+ rest) <$> format_from kw None (String c s)
              else if decide (c0 = "{"%char) then
                if has_field_syntax acc then Raise (FormatUnsupported acc)
                else Raise ValueError
              else format_from kw (Some (acc +:+ String c0 EmptyString))
                     (String c s)).
      case_decide;
        [|case_decide; [by destruct (has_field_syntax acc)|apply IH2]].
      pose proof (field_value_no_config kw acc msg).
      destruct (field_value kw acc) as [v|]; [|done].
      exact (fmap_no_config (λ rest, v +:+ rest) _ _ (IH2 c None)).
    + change (format_from kw None (String c0 (String c s)))
        with (if decide (c0 = "{"%char) then
                if decide (c = "{"%char)
                then String "{"%char <$> format_from kw None s
                else format_from kw (Some EmptyString) (String c s)
              else if decide (c0 = "}"%char) then
                if decide (c = "}"%char)
                then String "}"%char <$> format_from kw None s
                else Raise ValueError
              else String c0 <$> format_from kw None (String c s)).
      repeat case_decide; try done;
        try apply fmap_no_config; auto.
Qed.

Lemma format_from_no_config (kw : kwargs) (field : option string) (s : string)
    (msg : string) :
  format_from kw field s ≠ Raise (Exception msg).
Proof. apply format_from_no_config_aux. Qed.

(** *** What a worker changes *)

Lemma _execute_unfold (self : Task.ref) (agent : Agent.t) (prompt : string)
    (context : option string) (tools : list Tool.t) (w : Task.world) :
  Task._execute self agent prompt context tools w
  = let w1 := Task.log (Task.ExecuteTask (Agent.role agent) prompt context
                          (Some tools)) w in
    match backend_call agent prompt context tools with
    | Raise e => (Raise e, w1)
    | Ret res =>
        match Task.tasks w !! self with
        | None => (Raise DanglingRef, w1)
        | Some me =>
            let out := TaskOutput.mk (Task.description me) res in
            let w2 := Task.set_tasks
                        (<[self := Task.with_output (Some out) me]>
                           (Task.tasks w)) w1 in
            (Ret res,
             match Task.callback me with
             | Some cb => Task.log (Task.Callback cb out) w2
             | None => w2
             end)
        end
    end.
Proof.
  unfold Task._execute, backend_call, mbind, Task.M_bind, Task.bind,
    Task.modify, Task.lift, Task.get_task, Task.ret. simpl.
  destruct (Agent.call _) as [res|e]; [|done].
  destruct (Task.tasks w !! self) as [me|]; [|done].
  by destruct (Task.callback me).
Qed.

Lemma run_thread_idle (x : Task.tid) (w : Task.world) :
  (∀ th, ¬ alive w x th) → Task.run_thread x w = w.
Proof.
  intros H. unfold Task.run_thread.
  destruct (Task.threads w !! x) as [th|] eqn:Hx; [|done].
  destruct (Task.finished th) eqn:Hf; [done|]. by destruct (H th).
Qed.

Lemma run_thread_tasks (x : Task.tid) (w : Task.world) (th : Task.Thread)
    (r : Task.ref) :
  alive w x th →
  Task.tasks (Task.run_thread x w) !! r
  = if decide (r = Task.target th)
    then written th <$> Task.tasks w !! r
    else Task.tasks w !! r.
Proof.
  intros [Hx Hf]. unfold Task.run_thread. rewrite Hx, Hf.
  rewrite _execute_unfold. unfold written. simpl.
  destruct (backend_call _ _ _ _) as [res|e]; simpl.
  - destruct (Task.tasks w !! Task.target th) as [me|] eqn:Hme; simpl.
    + destruct (Task.callback me); simpl;
        (case_decide as Hr; [subst r; by rewrite lookup_insert_eq, Hme
                            |by rewrite lookup_insert_ne]).
    + case_decide; [subst r; by rewrite Hme|done].
  - case_decide; [|done]. by destruct (Task.tasks w !! r).
Qed.

Lemma run_thread_threads (x : Task.tid) (w : Task.world) (th : Task.Thread) :
  alive w x th →
  Task.threads (Task.run_thread x w) = <[x := Task.finish th]> (Task.threads w).
Proof.
  intros [Hx Hf]. unfold Task.run_thread. rewrite Hx, Hf.
  rewrite _execute_unfold. simpl.
  destruct (backend_call _ _ _ _) as [res|e]; simpl; [|done].
  destruct (Task.tasks w !! Task.target th) as [me|]; simpl; [|done].
  by destruct (Task.callback me).
Qed.

Lemma alive_dec (w : Task.world) (x : Task.tid) :
  (∃ th, alive w x th) ∨ (∀ th, ¬ alive w x th).
Proof.
  unfold alive. destruct (Task.threads w !! x) as [th|]; [|right; by intros ? []].
  destruct (Task.finished th) eqn:Hf; [right|left; eauto].
  intros th' [[= <-] ?]. congruence.
Qed.

(** Workers only ever finish. *)
Lemma alive_run_thread (y x : Task.tid) (w : Task.world) (th : Task.Thread) :
  alive (Task.run_thread y w) x th → alive w x th ∧ x ≠ y.
Proof.
  destruct (alive_dec w y) as [[thy Hy]|Hy].
  - unfold alive at 1. rewrite (run_thread_threads _ _ _ Hy).
    intros [Hx Hf]. destruct (decide (x = y)) as [->|Hne].
    + destruct Hy as [Hy _]. apply lookup_lt_Some in Hy as Hlt.
      rewrite list_lookup_insert_eq in Hx by done.
      injection Hx as <-. done.
    + rewrite list_lookup_insert_ne in Hx by done. done.
  - rewrite run_thread_idle by done. intros Hx. split; [done|].
    intros ->. by apply (Hy th).
Qed.

Lemma same_static_refl (a : Task.t) : same_static a a.
Proof. by destruct a. Qed.

Lemma same_static_trans (a b c : Task.t) :
  same_static a b → same_static b c → same_static a c.
Proof. unfold same_static. intros -> ->. by destruct a. Qed.

Lemma same_static_written (th : Task.Thread) (me : Task.t) :
  same_static me (written th me).
Proof.
  unfold written. destruct (backend_call _ _ _ _); [by destruct me|].
  apply same_static_refl.
Qed.

Lemma run_thread_static (x : Task.tid) (w : Task.world) (r : Task.ref)
    (me : Task.t) :
  Task.tasks w !! r = Some me →
  ∃ me', Task.tasks (Task.run_thread x w) !! r = Some me'
         ∧ same_static me me'.
Proof.
  intros Hr. destruct (alive_dec w x) as [[th Hx]|Hx].
  - rewrite (run_thread_tasks _ _ _ _ Hx), Hr.
    case_decide; simpl; eauto using same_static_written, same_static_refl.
  - rewrite run_thread_idle by done. eauto using same_static_refl.
Qed.

Lemma run_thread_dangling (x : Task.tid) (w : Task.world) (r : Task.ref) :
  Task.tasks w !! r = None → Task.tasks (Task.run_thread x w) !! r = None.
Proof.
  intros Hr. destruct (alive_dec w x) as [[th Hx]|Hx].
  - rewrite (run_thread_tasks _ _ _ _ Hx), Hr. by case_decide.
  - by rewrite run_thread_idle.
Qed.

Lemma same_static_fields (a b : Task.t) :
  same_static a b →
  Task.async_execution b = Task.async_execution a
  ∧ Task.thread b = Task.thread a
  ∧ Task.tools b = Task.tools a
  ∧ Task.agent b = Task.agent a
  ∧ Task.context b = Task.context a
  ∧ Task._prompt b = Task._prompt a.
Proof. unfold same_static. intros ->. by destruct a. Qed.

Lemma not_alive_after (y : Task.tid) (w : Task.world) (th : Task.Thread) :
  ¬ alive (Task.run_thread y w) y th.
Proof. intros H. by apply alive_run_thread in H as [_ ?]. Qed.

Lemma alive_other (y x : Task.tid) (w : Task.world) (th : Task.Thread) :
  x ≠ y → alive (Task.run_thread y w) x th ↔ alive w x th.
Proof.
  intros Hne. split; [intros H; by apply alive_run_thread in H as [? _]|].
  destruct (alive_dec w y) as [[thy Hy]|Hy].
  - unfold alive. rewrite (run_thread_threads _ _ _ Hy).
    by rewrite list_lookup_insert_ne.
  - by rewrite run_thread_idle.
Qed.

Lemma settled_run_thread (y : Task.tid) (w : Task.world) (u : Task.ref) :
  settled w u →
  settled (Task.run_thread y w) u
  ∧ Task.tasks (Task.run_thread y w) !! u = Task.tasks w !! u.
Proof.
  intros Hs. split.
  - intros x th Hx. apply alive_run_thread in Hx as [Hx _]. by apply (Hs x).
  - destruct (alive_dec w y) as [[thy Hy]|Hy].
    + rewrite (run_thread_tasks _ _ _ _ Hy).
      rewrite decide_False; [done|]. intros ->. by apply (Hs y thy).
    + by rewrite run_thread_idle.
Qed.

Lemma settled_run_threads (ys : list Task.tid) (w : Task.world) (u : Task.ref) :
  settled w u →
  settled (Task.run_threads ys w) u
  ∧ Task.tasks (Task.run_threads ys w) !! u = Task.tasks w !! u.
Proof.
  revert w. induction ys as [|y ys IH]; intros w Hs; [done|].
  unfold Task.run_threads in *. simpl.
  destruct (settled_run_thread y w u Hs) as [Hs' Ht'].
  destruct (IH _ Hs') as [? Ht'']. split; [done|]. by rewrite Ht''.
Qed.

Lemma no_orphans_run_thread (y : Task.tid) (w : Task.world)
    (ups : list Task.ref) :
  no_orphans w ups → no_orphans (Task.run_thread y w) ups.
Proof.
  intros Hno u x th Hu Hx Ht. apply alive_run_thread in Hx as [Hx _].
  destruct (Hno u x th Hu Hx Ht) as (up & Hup & Ha & Hh).
  destruct (run_thread_static y w u up Hup) as (up' & Hup' & Hst).
  apply same_static_fields in Hst as (Ha' & Hh' & _).
  exists up'. by rewrite Ha', Hh'.
Qed.

Lemma no_orphans_run_threads (ys : list Task.tid) (w : Task.world)
    (ups : list Task.ref) :
  no_orphans w ups → no_orphans (Task.run_threads ys w) ups.
Proof.
  revert w. induction ys as [|y ys IH]; intros w Hno; [done|].
  unfold Task.run_threads in *. simpl. by apply IH, no_orphans_run_thread.
Qed.

Lemma run_threads_app (xs ys : list Task.tid) (w : Task.world) :
  Task.run_threads (xs ++ ys) w = Task.run_threads ys (Task.run_threads xs w).
Proof. unfold Task.run_threads. by rewrite foldl_app. Qed.

Lemma run_threads_static (ys : list Task.tid) (w : Task.world) (r : Task.ref)
    (me : Task.t) :
  Task.tasks w !! r = Some me →
  ∃ me', Task.tasks (Task.run_threads ys w) !! r = Some me'
         ∧ same_static me me'.
Proof.
  revert w me. induction ys as [|y ys IH]; intros w me Hr.
  - eauto using same_static_refl.
  - destruct (run_thread_static y w r me Hr) as (me1 & H1 & Hs1).
    destruct (IH _ _ H1) as (me2 & H2 & Hs2).
    exists me2. split; [done|]. by eapply same_static_trans.
Qed.

Lemma completed_run_thread (y : Task.tid) (w : Task.world) (h : Task.tid) :
  completed w h → completed (Task.run_thread y w) h.
Proof.
  intros (th & Hh & Hf). destruct (alive_dec w y) as [[thy Hy]|Hy].
  - exists th. rewrite (run_thread_threads _ _ _ Hy).
    rewrite list_lookup_insert_ne; [done|].
    intros <-. destruct Hy as [Hy Hfy]. congruence.
  - rewrite run_thread_idle by done. by exists th.
Qed.

Lemma completed_run_threads (ys : list Task.tid) (w : Task.world)
    (h : Task.tid) :
  completed w h → completed (Task.run_threads ys w) h.
Proof.
  revert w. induction ys as [|y ys IH]; intros w Hc; [done|].
  unfold Task.run_threads in *. simpl. by apply IH, completed_run_thread.
Qed.

Lemma run_thread_completes (h : Task.tid) (w : Task.world) :
  is_Some (Task.threads w !! h) → completed (Task.run_thread h w) h.
Proof.
  intros [th Hh]. destruct (Task.finished th) eqn:Hf.
  - rewrite run_thread_idle; [by exists th|].
    intros th' [Hh' Hf']. congruence.
  - unfold completed. rewrite (run_thread_threads h w th) by done.
    exists (Task.finish th). split; [|done].
    apply list_lookup_insert_eq. by eapply lookup_lt_Some.
Qed.

Lemma run_thread_is_Some (y : Task.tid) (w : Task.world) (h : Task.tid) :
  is_Some (Task.threads w !! h) → is_Some (Task.threads (Task.run_thread y w) !! h).
Proof.
  intros Hh. destruct (alive_dec w y) as [[thy Hy]|Hy].
  - rewrite (run_thread_threads _ _ _ Hy).
    apply lookup_lt_is_Some. rewrite length_insert.
    by apply lookup_lt_is_Some.
  - by rewrite run_thread_idle.
Qed.

Lemma run_threads_is_Some (ys : list Task.tid) (w : Task.world) (h : Task.tid) :
  is_Some (Task.threads w !! h) →
  is_Some (Task.threads (Task.run_threads ys w) !! h).
Proof.
  revert w. induction ys as [|y ys IH]; intros w Hh; [done|].
  unfold Task.run_threads in *. simpl. by apply IH, run_thread_is_Some.
Qed.

Lemma handle_of_run_threads (ys : list Task.tid) (w : Task.world)
    (u : Task.ref) (h : Task.tid) :
  handle_of w u h → handle_of (Task.run_threads ys w) u h.
Proof.
  intros (up & Hup & Ha & Hh & Hs).
  destruct (run_threads_static ys w u up Hup) as (up' & Hup' & Hst).
  apply same_static_fields in Hst as (Ha' & Hh' & _).
  exists up'. rewrite Ha', Hh'. split_and!; try done.
  by apply run_threads_is_Some.
Qed.

(** *** Reading an upstream task *)

Lemma read_upstream_unfold (sch : Task.schedule) (u : Task.ref)
    (w : Task.world) :
  Task.read_upstream sch u w
  = let w1 := Task.run_threads (hd [] sch) w in
    let finish w2 :=
      let w3 := Task.run_threads (hd [] (tail sch)) w2 in
      (pair (tail (tail sch)) <$> read_output (Task.tasks w3 !! u), w3) in
    match Task.tasks w1 !! u with
    | None => (Raise DanglingRef, w1)
    | Some up =>
        if Task.flag (Task.async_execution up) then
          match Task.thread up with
          | None => (Raise (AttributeError "join"), w1)
          | Some h => finish (Task.run_thread h w1)
          end
        else finish w1
    end.
Proof.
  unfold Task.read_upstream, mbind, Task.M_bind, Task.bind, Task.yield,
    Task.get_task, Task.join_thread, Task.modify, Task.raise, Task.ret,
    read_output.
  simpl.
  destruct (Task.tasks (Task.run_threads (hd [] sch) w) !! u) as [up|];
    [|done].
  destruct (Task.flag (Task.async_execution up)).
  - destruct (Task.thread up) as [h|]; [|done]. simpl.
    destruct (Task.tasks _ !! u) as [up'|]; [|done].
    by destruct (Task.output up').
  - simpl. destruct (Task.tasks _ !! u) as [up'|]; [|done].
    by destruct (Task.output up').
Qed.

Lemma upstream_value_unfold (u : Task.ref) (w : Task.world) :
  upstream_value u w
  = match Task.tasks w !! u with
    | None => Raise DanglingRef
    | Some up =>
        if Task.flag (Task.async_execution up) then
          match Task.thread up with
          | None => Raise (AttributeError "join")
          | Some h => read_output (Task.tasks (Task.run_thread h w) !! u)
          end
        else read_output (Some up)
    end.
Proof.
  unfold upstream_value. rewrite read_upstream_unfold. simpl.
  unfold Task.run_threads. simpl.
  destruct (Task.tasks w !! u) as [up|] eqn:Hu; [|done].
  destruct (Task.flag (Task.async_execution up)).
  - destruct (Task.thread up) as [h|]; [|done]. simpl.
    by destruct (read_output _).
  - simpl. rewrite ?Hu. simpl. by destruct (Task.output up).
Qed.

(** A task of [ups] that is not asynchronous has no worker left. *)
Lemma sync_settled (w : Task.world) (ups : list Task.ref) (u : Task.ref)
    (up : Task.t) :
  no_orphans w ups → u ∈ ups → Task.tasks w !! u = Some up →
  Task.flag (Task.async_execution up) = false → settled w u.
Proof.
  intros Hno Hu Hup Hs x th Hx Ht.
  destruct (Hno u x th Hu Hx Ht) as (up' & Hup' & Ha & _). congruence.
Qed.

(** Once its handle is joined, a task of [ups] has no worker left. *)
Lemma joined_settled (w : Task.world) (ups : list Task.ref) (u : Task.ref)
    (up : Task.t) (h : Task.tid) :
  no_orphans w ups → u ∈ ups → Task.tasks w !! u = Some up →
  Task.thread up = Some h → settled (Task.run_thread h w) u.
Proof.
  intros Hno Hu Hup Hh x th Hx Ht. apply alive_run_thread in Hx as [Hx Hne].
  destruct (Hno u x th Hu Hx Ht) as (up' & Hup' & _ & Hh'). congruence.
Qed.

(** What will be read for a task of [ups] does not depend on which
    workers complete in the meantime. *)
Lemma upstream_value_run_thread (y : Task.tid) (w : Task.world)
    (ups : list Task.ref) (u : Task.ref) :
  no_orphans w ups → u ∈ ups →
  upstream_value u (Task.run_thread y w) = upstream_value u w.
Proof.
  intros Hno Hu. destruct (alive_dec w y) as [[thy Hy]|Hy];
    [|by rewrite run_thread_idle].
  rewrite !upstream_value_unfold.
  destruct (decide (Task.target thy = u)) as [Ht|Ht].
  - destruct (Hno u y thy Hu Hy Ht) as (up & Hup & Ha & Hh).
    destruct (run_thread_static y w u up Hup) as (up' & Hup' & Hst).
    apply same_static_fields in Hst as (Ha' & Hh' & _).
    rewrite Hup, Hup', Ha', Hh', Ha, Hh.
    rewrite (run_thread_idle y (Task.run_thread y w)); [done|].
    intros th. apply not_alive_after.
  - assert (Task.tasks (Task.run_thread y w) !! u = Task.tasks w !! u) as Hsame
      by (by rewrite (run_thread_tasks _ _ _ u Hy), decide_False).
    rewrite Hsame.
    destruct (Task.tasks w !! u) as [up|] eqn:Hup; [|done].
    destruct (Task.flag (Task.async_execution up)); [|done].
    destruct (Task.thread up) as [h|]; [|done]. f_equal.
    destruct (decide (h = y)) as [->|Hne].
    + rewrite (run_thread_idle y (Task.run_thread y w)); [done|].
      intros th. apply not_alive_after.
    + destruct (alive_dec w h) as [[th Hh]|Hh].
      * rewrite (run_thread_tasks h w th u Hh).
        rewrite (run_thread_tasks h (Task.run_thread y w) th u)
          by (by apply alive_other).
        by rewrite Hsame, Hup.
      * rewrite (run_thread_idle h w) by done.
        rewrite (run_thread_idle h (Task.run_thread y w));
          [by rewrite Hsame, Hup|].
        intros th Hth. apply alive_other in Hth; [|done]. by apply (Hh th).
Qed.

Lemma upstream_value_run_threads (ys : list Task.tid) (w : Task.world)
    (ups : list Task.ref) (u : Task.ref) :
  no_orphans w ups → u ∈ ups →
  upstream_value u (Task.run_threads ys w) = upstream_value u w.
Proof.
  revert w. induction ys as [|y ys IH]; intros w Hno Hu; [done|].
  unfold Task.run_threads in *. simpl.
  rewrite IH by (by try apply no_orphans_run_thread).
  by eapply upstream_value_run_thread.
Qed.

(** One iteration of the loop, whatever the schedule, reads the value
    determined at the start. *)
Lemma read_upstream_value (ups : list Task.ref) (sch : Task.schedule)
    (u : Task.ref) (w : Task.world) :
  no_orphans w ups → u ∈ ups →
  ∃ ys, Task.read_upstream sch u w
        = (pair (tail (tail sch)) <$> upstream_value u w,
           Task.run_threads ys w)
        ∧ ∀ h, handle_of w u h → completed (Task.run_threads ys w) h.
Proof.
  intros Hno Hu. rewrite read_upstream_unfold. cbv zeta.
  set (l1 := hd [] sch). set (l2 := hd [] (tail sch)).
  rewrite <- (upstream_value_run_threads l1 w ups u Hno Hu).
  pose proof (no_orphans_run_threads l1 w ups Hno) as Hno1.
  pose proof (λ h, handle_of_run_threads l1 w u h) as Hhandle.
  set (w1 := Task.run_threads l1 w) in *.
  rewrite upstream_value_unfold.
  destruct (Task.tasks w1 !! u) as [up|] eqn:Hup.
  2:{ exists l1. split; [done|]. intros h Hh.
      destruct (Hhandle h Hh) as (? & ? & _). congruence. }
  destruct (Task.flag (Task.async_execution up)) eqn:Ha.
  - destruct (Task.thread up) as [h|] eqn:Hh.
    2:{ exists l1. split; [done|]. intros h Hh'.
        destruct (Hhandle h Hh') as (? & ? & _ & ? & _). congruence. }
    exists (l1 ++ [h] ++ l2)%list. rewrite !run_threads_app.
    change (Task.run_threads [h] (Task.run_threads l1 w))
      with (Task.run_thread h w1).
    pose proof (joined_settled w1 ups u up h Hno1 Hu Hup Hh) as Hs.
    destruct (settled_run_threads l2 _ u Hs) as [_ ->]. split; [done|].
    intros h' Hh'. destruct (Hhandle h' Hh') as (up' & Hup' & _ & Hth & Hsome).
    assert (h' = h) as -> by congruence.
    by apply completed_run_threads, run_thread_completes.
  - exists (l1 ++ l2)%list. rewrite !run_threads_app. fold w1.
    pose proof (sync_settled w1 ups u up Hno1 Hu Hup Ha) as Hs.
    destruct (settled_run_threads l2 _ u Hs) as [_ ->].
    split; [by rewrite Hup|]. intros h Hh'.
    destruct (Hhandle h Hh') as (? & ? & ? & _). congruence.
Qed.

Lemma Forall2_impl_elem {A B} (P Q : A → B → Prop) (l : list A) (k : list B) :
  Forall2 P l k → (∀ a b, a ∈ l → P a b → Q a b) → Forall2 Q l k.
Proof.
  induction 1 as [|a b l k Hab _ IH]; intros HPQ; constructor.
  - apply HPQ; [left|done].
  - apply IH. intros a' b' Ha'. apply HPQ. by right.
Qed.

(** The loop, whatever the schedule, gathers the values determined at the
    start, in the order of the list, and leaves the worker of every
    asynchronous task of the list completed. *)
Lemma gather_values (ups : list Task.ref) (l : list Task.ref)
    (rs : list string) (sch : Task.schedule) (w : Task.world) :
  no_orphans w ups → l ⊆ ups →
  Forall2 (λ u r, upstream_value u w = Ret r) l rs →
  ∃ sch' ys,
    Task.gather sch l w = (Ret (sch', rs), Task.run_threads ys w)
    ∧ ∀ u h, u ∈ l → handle_of w u h → completed (Task.run_threads ys w) h.
Proof.
  revert rs sch w. induction l as [|u l IH]; intros rs sch w Hno Hsub Hrs.
  - apply Forall2_nil_inv_l in Hrs as ->. exists sch, [].
    split; [done|]. by intros u h ?%elem_of_nil.
  - apply Forall2_cons_inv_l in Hrs as (r & rs' & Hr & Hrs & ->).
    assert (u ∈ ups) as Hu by (apply Hsub; left).
    destruct (read_upstream_value ups sch u w Hno Hu) as (ys & Hread & Hdone).
    rewrite Hr in Hread.
    destruct (IH rs' (tail (tail sch)) (Task.run_threads ys w))
      as (sch' & zs & Hgather & Hdone').
    + by apply no_orphans_run_threads.
    + intros x Hx. apply Hsub. by right.
    + eapply Forall2_impl_elem; [exact Hrs|]. simpl. intros u' r' Hu' Hv.
      rewrite (upstream_value_run_threads ys w ups); [done..|].
      apply Hsub. by right.
    + exists sch', (ys ++ zs)%list. rewrite run_threads_app. split.
      * simpl. unfold mbind, Task.M_bind, Task.bind.
        rewrite Hread. simpl. by rewrite Hgather.
      * intros u' h Hu' Hh. apply elem_of_cons in Hu' as [->|Hu'].
        -- by apply completed_run_threads, Hdone.
        -- apply (Hdone' u'); [done|]. by apply handle_of_run_threads.
Qed.

(** *** [execute] *)

Lemma never_config_raise {A} (e : exn) :
  (∀ msg, e ≠ Exception msg) → never_config (@Task.raise A e).
Proof. intros H w msg [= ->]. by apply (H msg). Qed.

Lemma never_config__execute (self : Task.ref) (agent : Agent.t)
    (prompt : string) (context : option string) (tools : list Tool.t) :
  never_config (Task._execute self agent prompt context tools).
Proof.
  intros w msg. rewrite _execute_unfold. cbv zeta. unfold backend_call.
  destruct (Agent.execute_task _ _ _ _); simpl; [|done].
  by destruct (Task.tasks w !! self).
Qed.

Lemma never_config_read_upstream (sch : Task.schedule) (u : Task.ref) :
  never_config (Task.read_upstream sch u).
Proof.
  intros w msg. rewrite read_upstream_unfold. cbv zeta.
  destruct (Task.tasks _ !! u) as [up|]; [|done].
  assert (∀ w2, (pair (tail (tail sch)) <$> read_output (Task.tasks w2 !! u))
                ≠ Raise (Exception msg)) as Hfin.
  { intros w2. unfold read_output. destruct (Task.tasks w2 !! u) as [up2|]; [|done].
    by destruct (Task.output up2). }
  destruct (Task.flag _); [|apply Hfin].
  destruct (Task.thread up); [apply Hfin|done].
Qed.

Lemma never_config_gather (l : list Task.ref) (sch : Task.schedule) :
  never_config (Task.gather sch l).
Proof.
  revert sch. induction l as [|u l IH]; intros sch; simpl.
  - apply never_config_ret.
  - apply never_config_bind; [apply never_config_read_upstream|].
    intros [sch1 r]. apply never_config_bind; [apply IH|].
    intros [sch2 rs]. apply never_config_ret.
Qed.

Lemma never_config__prompt (me : Task.t) : never_config (Task.lift (Task._prompt me)).
Proof.
  apply never_config_lift. intros msg. unfold Task._prompt.
  destruct (str_truthy _); [|done]. unfold str_format.
  pose proof (format_from_no_config
    [("expected_output", default "" (Task.expected_output me))] None
    (I18N.slice (Task.i18n me) "expected_output") msg) as H.
  by destruct (format_from _ _ _).
Qed.

Lemma execute_args_resolved (sch : Task.schedule) (self : Task.ref)
    (me : Task.t) (a : Agent.t) (agent : option Agent.t)
    (context : option string) (tools : option (list Tool.t))
    (w : Task.world) :
  Task.tasks w !! self = Some me →
  Task.or_else agent (Task.agent me) = Some a →
  Task.execute_args sch self agent context tools w
  = execute_with sch self me a context tools w.
Proof.
  intros Hme Ha. unfold Task.execute_args, execute_with.
  unfold mbind at 1, Task.M_bind at 1, Task.bind at 1, Task.get_task at 1.
  by rewrite Hme, Ha.
Qed.

Lemma never_config_execute_with sch self me a context tools :
  never_config (execute_with sch self me a context tools).
Proof.
  unfold execute_with. apply never_config_bind.
  - destruct (Task.context me) as [[|u l]|]; try apply never_config_ret.
    apply never_config_bind; [apply never_config_gather|].
    intros [sch' rs]. apply never_config_ret.
  - intros [sch' c]. apply never_config_bind; [apply never_config_get_task|].
    intros me'. apply never_config_bind; [apply never_config__prompt|].
    intros p. apply never_config_ret.
Qed.

(** C4: when the task has no agent attached and the call supplies none,
    [execute] raises the configuration error, whose message quotes the
    description whatever it is, and the store is as before: no backend
    was called and no output assigned.  When an agent is attached or
    supplied, [execute] does not raise that error. *)
Theorem C4_no_agent_raises (sch : Task.schedule) (self : Task.ref)
    (me : Task.t) (agent : option Agent.t) (context : option string)
    (tools : option (list Tool.t)) (w : Task.world) :
  Task.tasks w !! self = Some me →
  (Task.agent me = None →
   Task.execute sch self None context tools w
   = (Raise (Exception (Task.no_agent_message (Task.description me))), w))
  ∧ (is_Some agent ∨ is_Some (Task.agent me) →
     ∀ msg, fst (Task.execute sch self agent context tools w)
            ≠ Raise (Exception msg)).
Proof.
  intros Hme. split.
  - intros Hnone. unfold Task.execute, Task.execute_args.
    unfold mbind, Task.M_bind, Task.bind, Task.get_task. simpl.
    by rewrite Hme, Hnone.
  - intros Hsome msg.
    assert (∃ a, Task.or_else agent (Task.agent me) = Some a) as [a Ha].
    { destruct agent as [a|]; [by exists a|].
      destruct Hsome as [[? [=]]|[a ->]]. by exists a. }
    revert w msg Hme.
    change (∀ w msg, Task.tasks w !! self = Some me →
              (Task.execute sch self agent context tools w).1
              ≠ Raise (Exception msg)).
    intros w msg Hme. unfold Task.execute.
    unfold mbind at 1, Task.M_bind at 1, Task.bind at 1.
    rewrite (execute_args_resolved _ _ me a) by done.
    pose proof (never_config_execute_with sch self me a context tools w msg)
      as Hargs.
    destruct (execute_with sch self me a context tools w)
      as [[[sch' [[[a' p'] c'] t']]|e] w1]; simpl in *.
    2:{ intros [= ->]. by apply Hargs. }
    clear Hargs. revert w1 msg.
    change (never_config
              (me0 ← Task.get_task self;
               if Task.flag (Task.async_execution me0) then
                 w0 ← ((λ w, (Ret w, w)) : Task.M Task.world);
                 let x := length (Task.threads w0) in
                 Task.modify (λ w, Task.set_threads
                   (Task.threads w ++ [Task.mkThread self a' p' c' t' false])
                   w);;
                 Task.modify (λ w, Task.set_tasks
                   (<[self := Task.with_thread (Some x) me0]> (Task.tasks w))
                   w);;
                 Task.ret None
               else
                 result ← Task._execute self a' p' c' t';
                 Task.ret (Some result))).
    apply never_config_bind; [apply never_config_get_task|]. intros me0.
    destruct (Task.flag _).
    + apply never_config_bind; [by intros ??|]. intros w0. cbv zeta.
      apply never_config_bind; [apply never_config_modify|]. intros _.
      apply never_config_bind; [apply never_config_modify|]. intros _.
      apply never_config_ret.
    + apply never_config_bind; [apply never_config__execute|]. intros r.
      apply never_config_ret.
Qed.

Lemma execute_unfold (sch : Task.schedule) (self : Task.ref)
    (agent : option Agent.t) (context : option string)
    (tools : option (list Tool.t)) (w w1 : Task.world)
    (sch' : Task.schedule) (a : Agent.t) (p : string) (c : option string)
    (tl : list Tool.t) (me : Task.t) :
  Task.execute_args sch self agent context tools w
  = (Ret (sch', (a, p, c, tl)), w1) →
  Task.tasks w1 !! self = Some me →
  Task.execute sch self agent context tools w
  = if Task.flag (Task.async_execution me) then
      (Ret None,
       Task.set_tasks
         (<[self := Task.with_thread (Some (length (Task.threads w1))) me]>
            (Task.tasks w1))
         (Task.set_threads
            (Task.threads w1 ++ [Task.mkThread self a p c tl false]) w1))
    else
      let r := Task._execute self a p c tl w1 in (Some <$> r.1, r.2).
Proof.
  intros Hargs Hme. unfold Task.execute.
  unfold mbind at 1, Task.M_bind at 1, Task.bind at 1. rewrite Hargs.
  unfold mbind at 1, Task.M_bind at 1, Task.bind at 1, Task.get_task at 1.
  rewrite Hme. destruct (Task.flag _); [done|].
  unfold mbind, Task.M_bind, Task.bind, Task.ret.
  by destruct (Task._execute self a p c tl w1) as [[r|e] w2].
Qed.

(** C1: a task whose [context] is a non-empty list of upstream tasks
    drops the caller's context and passes the backend the upstream
    results joined by newlines, in the order of the list.  Each result is
    the one determined for that task alone at the start of the call (its
    output once its worker, if it is asynchronous, has been joined), so
    the context is the same for every schedule of the workers, and when
    the context has been assembled the worker of every asynchronous
    upstream task has completed.  A synchronous task makes the backend
    call with that context at once; an asynchronous one starts a worker
    holding it. *)
Theorem C1_context_rebuilt_from_upstream (sch : Task.schedule)
    (w : Task.world) (self : Task.ref) (me : Task.t) (ups : list Task.ref)
    (rs : list string) (a : Agent.t) (p : string) (agent : option Agent.t)
    (context : option string) (tools : option (list Tool.t)) :
  Task.tasks w !! self = Some me →
  Task.context me = Some ups → ups ≠ [] →
  Task.or_else agent (Task.agent me) = Some a →
  Task._prompt me = Ret p →
  no_orphans w ups →
  Forall2 (λ u r, upstream_value u w = Ret r) ups rs →
  let c := Some (join newline rs) in
  let tl := Task.list_or tools (Task.tools me) in
  ∃ sch' ys,
    Task.execute_args sch self agent context tools w
    = (Ret (sch', (a, p, c, tl)), Task.run_threads ys w)
    ∧ (∀ u h, u ∈ ups → handle_of w u h →
              completed (Task.run_threads ys w) h)
    ∧ (Task.flag (Task.async_execution me) = false →
       ∃ w', Task.execute sch self agent context tools w
             = (Some <$> backend_call a p c tl, w')
             ∧ Task.ExecuteTask (Agent.role a) p c (Some tl) ∈ Task.trace w')
    ∧ (Task.flag (Task.async_execution me) = true →
       ∃ w', Task.execute sch self agent context tools w = (Ret None, w')
             ∧ list.last (Task.threads w')
               = Some (Task.mkThread self a p c tl false)).
Proof.
  intros Hme Hctx Hne Ha Hp Hno Hrs c tl.
  destruct (gather_values ups ups rs sch w Hno) as (sch' & ys & Hg & Hdone);
    [done..|].
  destruct (run_threads_static ys w self me Hme) as (me' & Hme' & Hst).
  apply same_static_fields in Hst as (Hasync & _ & Htools & _ & _ & Hprompt).
  assert (Task.execute_args sch self agent context tools w
          = (Ret (sch', (a, p, c, tl)), Task.run_threads ys w)) as Hargs.
  { rewrite (execute_args_resolved _ _ me a) by done.
    unfold execute_with. rewrite Hctx.
    destruct ups as [|u l]; [done|].
    unfold mbind, Task.M_bind, Task.bind. rewrite Hg. simpl.
    unfold Task.get_task. rewrite Hme'. unfold Task.lift.
    rewrite Hprompt, Hp. simpl. by rewrite Htools. }
  exists sch', ys. split; [done|]. split; [done|].
  rewrite (execute_unfold _ _ _ _ _ _ _ _ _ _ _ _ _ Hargs Hme'), Hasync.
  split; intros ->.
  - rewrite _execute_unfold. cbv zeta. fold (backend_call a p c tl).
    destruct (backend_call a p c tl) as [res|e]; simpl.
    + rewrite Hme'. eexists. split; [done|].
      destruct (Task.callback me'); simpl;
        rewrite ?elem_of_app, !elem_of_cons; auto.
    + eexists. split; [done|]. simpl. rewrite elem_of_app, !elem_of_cons. auto.
  - eexists. split; [done|]. simpl. by rewrite last_snoc.
Qed.

(** The loop only ever lets workers complete. *)
Lemma read_upstream_world (sch : Task.schedule) (u : Task.ref)
    (w : Task.world) :
  ∃ ys, (Task.read_upstream sch u w).2 = Task.run_threads ys w.
Proof.
  rewrite read_upstream_unfold. cbv zeta.
  destruct (Task.tasks _ !! u) as [up|]; [|by eexists].
  destruct (Task.flag _).
  - destruct (Task.thread up) as [h|]; [|by eexists].
    exists (hd [] sch ++ [h] ++ hd [] (tail sch))%list.
    by rewrite !run_threads_app.
  - exists (hd [] sch ++ hd [] (tail sch))%list. by rewrite run_threads_app.
Qed.

Lemma gather_world (l : list Task.ref) (sch : Task.schedule) (w : Task.world) :
  ∃ ys, (Task.gather sch l w).2 = Task.run_threads ys w.
Proof.
  revert sch w. induction l as [|u l IH]; intros sch w; [by exists []|].
  simpl. unfold mbind, Task.M_bind, Task.bind.
  destruct (read_upstream_world sch u w) as [ys Hys].
  destruct (Task.read_upstream sch u w) as [[[sch1 r]|e] w1]; simpl in *;
    subst w1; [|by eexists].
  destruct (IH sch1 (Task.run_threads ys w)) as [zs Hzs].
  destruct (Task.gather sch1 l _) as [[[sch2 rs]|e] w2]; simpl in *; subst w2;
    exists (ys ++ zs)%list; by rewrite run_threads_app.
Qed.

Lemma check_tools_default (fields : Task.t) (a : Agent.t) :
  Task.tools fields = [] → Task.agent fields = Some a →
  Task.tools (Task.construct fields) = Agent.tools a.
Proof.
  intros Ht Ha. unfold Task.construct, Task.check_tools. rewrite Ha, Ht.
  destruct (Agent.tools a) eqn:Hat; simpl; by rewrite ?Ht, ?Hat.
Qed.

(** C3, as amended: [execute] takes as agent the override when one is
    supplied and the attached agent otherwise; as tools the override when
    it is supplied and not empty and the task's stored tools otherwise,
    which validation set to the attached agent's tools when the task was
    built with none; as context the caller's override, as it is, only
    when the task has no upstream tasks: when it has some, the call
    behaves as if no context had been supplied, and the context is the
    gathered upstream results joined by newlines. *)
Theorem C3_resolution_as_implemented (sch : Task.schedule)
    (self : Task.ref) (me : Task.t) (agent : option Agent.t)
    (context : option string) (tools : option (list Tool.t))
    (w : Task.world) (a : Agent.t) (p : string) :
  Task.tasks w !! self = Some me →
  Task.or_else agent (Task.agent me) = Some a →
  Task._prompt me = Ret p →
  let tl := Task.list_or tools (Task.tools me) in
  Some a = override_first agent (Task.agent me)
  ∧ (∀ x l, tools = Some (x :: l) → tl = x :: l)
  ∧ (tools = None ∨ tools = Some [] → tl = Task.tools me)
  ∧ (∀ fields ag, Task.tools fields = [] → Task.agent fields = Some ag →
       Task.tools (Task.construct fields) = Agent.tools ag)
  ∧ (Task.context me = None ∨ Task.context me = Some [] →
     Task.execute_args sch self agent context tools w
     = (Ret (sch, (a, p, context, tl)), w))
  ∧ (∀ u l, Task.context me = Some (u :: l) →
       Task.execute_args sch self agent context tools w
       = Task.execute_args sch self agent None tools w
       ∧ ∀ sch' a' p' c' tl' w',
           Task.execute_args sch self agent context tools w
           = (Ret (sch', (a', p', c', tl')), w') →
           a' = a ∧ p' = p ∧ tl' = tl
           ∧ ∃ rs, (Task.gather sch (u :: l) w).1 = Ret (sch', rs)
                   ∧ c' = Some (join newline rs)).
Proof.
  intros Hme Ha Hp tl. split_and!.
  - by destruct agent.
  - by intros x l ->.
  - by intros [->| ->].
  - apply check_tools_default.
  - intros Hctx. rewrite (execute_args_resolved _ _ me a) by done.
    unfold execute_with, mbind, Task.M_bind, Task.bind, Task.get_task,
      Task.lift, Task.ret.
    destruct Hctx as [->| ->]; simpl; by rewrite Hme, Hp.
  - intros u l Hctx. rewrite !(execute_args_resolved _ _ me a) by done.
    unfold execute_with. rewrite Hctx. split; [done|].
    intros sch' a' p' c' tl' w'.
    unfold mbind, Task.M_bind, Task.bind, Task.ret.
    destruct (gather_world (u :: l) sch w) as [ys Hys].
    destruct (Task.gather sch (u :: l) w) as [[[sch1 rs]|e] w1]; [|done].
    simpl in Hys. subst w1.
    destruct (run_threads_static ys w self me Hme) as (me' & Hme' & Hst).
    apply same_static_fields in Hst as (_ & _ & Htools & _ & _ & Hprompt).
    unfold Task.get_task, Task.lift. rewrite Hme', Hprompt, Hp, Htools.
    intros [= <- <- <- <- <- <-]. split_and!; try done. by exists rs.
Qed.

Lemma scenario_no_orphans : no_orphans Scenario.w0 [0; 1].
Proof.
  intros u x th _ [Hx Hf] Ht. destruct x as [|x]; [|done].
  injection Hx as <-. simpl in Ht. subst u.
  exists Scenario.T2. by split_and!.
Qed.

(** Whether T2's worker completes before the call, between the two reads
    or only when joined, T3's backend receives "A\nB". *)
Lemma C1_witness :
  ∃ sch' ys,
    Task.execute_args [[]; []; [0]] 2 None (Some "ignored") None
      Scenario.w0
    = (Ret (sch', (Scenario.writer, "third",
                   Some ("A" +:+ newline +:+ "B"), [Scenario.search])),
       Task.run_threads ys Scenario.w0).
Proof.
  destruct (C1_context_rebuilt_from_upstream [[]; []; [0]] Scenario.w0 2
              Scenario.T3 [0; 1] ["A"; "B"] Scenario.writer "third" None
              (Some "ignored") None)
    as (sch' & ys & Hargs & _); try reflexivity.
  - discriminate.
  - apply scenario_no_orphans.
  - repeat constructor.
  - exists sch', ys. exact Hargs.
Defined.

Lemma C3_witness :
  Task.execute_args [] 3 (Some Scenario.oracle) (Some "given")
    (Some [Scenario.search]) Scenario.w0
  = (Ret ([], (Scenario.oracle, "fourth", Some "given", [Scenario.search])),
     Scenario.w0).
Proof.
  refine (proj1 (proj2 (proj2 (proj2 (proj2
    (C3_resolution_as_implemented [] 3 Scenario.T4 (Some Scenario.oracle)
       (Some "given") (Some [Scenario.search]) Scenario.w0 Scenario.oracle
       "fourth" _ _ _))))) _); try reflexivity.
  by left.
Defined.

(** C3 as stated fails: with upstream tasks declared, the context the
    backend gets is not the override the caller supplied, whatever value
    is taken to be stored. *)
Lemma C3_counterexample :
  Task.execute_args [] 2 None (Some "X") None Scenario.w0
  = (Ret ([], (Scenario.writer, "third", Some ("A" +:+ newline +:+ "B"),
               [Scenario.search])),
     Task.run_threads [0] Scenario.w0)
  ∧ ∀ stored, Some ("A" +:+ newline +:+ "B") ≠ override_first (Some "X") stored.
Proof. split; [reflexivity|]. intros stored. discriminate. Qed.

Lemma C4_witness :
  Task.execute [] 3 None (Some "given") None Scenario.w0
  = (Raise (Exception (Task.no_agent_message "fourth")), Scenario.w0).
Proof.
  refine (proj1 (C4_no_agent_raises [] 3 Scenario.T4 None (Some "given")
                   None Scenario.w0 _) _); reflexivity.
Defined.

(** The whole call on T3: the backend echoes the context it was given. *)
Example execute_T3 :
  (Task.execute [] 2 None (Some "X") None Scenario.w0).1
  = Ret (Some ("A" +:+ newline +:+ "B"))
  ∧ Task.trace (Task.execute [] 2 None (Some "X") None Scenario.w0).2
    = [Task.ExecuteTask "Oracle" "second" None (Some []);
       Task.ExecuteTask "Writer" "third" (Some ("A" +:+ newline +:+ "B"))
         (Some [Scenario.search])].
Proof. split; reflexivity. Qed.

(** An upstream task that was never executed has no output to read. *)
Example execute_unexecuted_upstream :
  (Task.execute [] 2 None None None
     (Task.set_tasks (<[0 := Scenario.T4]> (Task.tasks Scenario.w0))
        Scenario.w0)).1
  = Raise (AttributeError "result").
Proof. reflexivity. Qed.

Example prompt_with_expected_output :
  Task._prompt
    (Task.mk Scenario.i18n None "Summarise" None None (Some "three lines")
       None None None [])
  = Ret ("Summarise" +:+ newline +:+ "Expected output: three lines").
Proof. reflexivity. Qed.

Example str_format_ex1 :
  str_format "one of: {coworkers}." [("coworkers", "A, B")]
  = Ret "one of: A, B.".
Proof. reflexivity. Qed.

Example str_format_ex2 :
  str_format "{{x}} {y}" [("coworkers", "A, B")] = Raise (KeyError "y").
Proof. reflexivity. Qed.

Example split_ex1 : split "|" "a|b|c" = ["a"; "b"; "c"].
Proof. reflexivity. Qed.

Example split_ex2 : split "|" "" = [""].
Proof. reflexivity. Qed.

Example split_ex3 : split "|" "a||" = ["a"; ""; ""].
Proof. reflexivity. Qed.

Example str_in_ex1 : str_in "Invalid Format" "xx Invalid Format yy" = true.
Proof. reflexivity. Qed.

Example str_in_ex2 : str_in "" "abc" = true.
Proof. reflexivity. Qed.

(** * Further properties *)

(** ** The tool-use interceptor under a stream of callbacks *)

Section ToolsHandlerStream.
Variable CacheTools_name : string.

Abbreviation on_end := (ToolsHandler.on_tool_end CacheTools_name).

Lemma start_qualifies (h : ToolsHandler.t) (serialized : gmap string PyVal)
    (input_str : string) :
  ToolsHandler.on_tool_start h serialized input_str
  = if qualifies (ToolStart serialized input_str)
    then ToolsHandler.mk
           (tools_usage (ToolsHandler.dict_get serialized "name") input_str)
           (ToolsHandler.cache h)
    else h.
Proof. reflexivity. Qed.

Lemma end_on_record (cache : CacheHandler.t) (tool : PyVal)
    (input_str output : string) :
  on_end (ToolsHandler.mk (tools_usage tool input_str) cache) output
  = (Ret (),
     ToolsHandler.mk (tools_usage tool input_str)
       (if ToolsHandler.no_failure_signal output
           && negb (bool_decide (tool = PyStr CacheTools_name))
        then CacheHandler.add tool (PyStr input_str) output cache
        else cache)).
Proof.
  unfold ToolsHandler.on_tool_end, ToolsHandler.dict_item, tools_usage. simpl.
  rewrite lookup_insert_eq, lookup_insert_ne by done.
  rewrite lookup_insert_eq.
  destruct (ToolsHandler.no_failure_signal output); [|done].
  by destruct (bool_decide (tool = PyStr CacheTools_name)).
Qed.

(** X1: of two starts that are both recorded, only the later one counts:
    the clean end that follows never writes the earlier pair; it makes
    exactly one [add], of the later tool and input, unless the later tool
    is the cache-lookup tool, in which case it makes none. *)
Theorem X1_last_start_wins (h : ToolsHandler.t)
    (serialized1 serialized2 : gmap string PyVal)
    (input1 input2 output : string) (name2 : PyVal) :
  qualifies (ToolStart serialized1 input1) = true →
  serialized2 !! "name" = Some name2 →
  name2 ∉ reserved →
  ToolsHandler.no_failure_signal output = true →
  let h' := handle_all CacheTools_name h
              [ToolStart serialized1 input1; ToolStart serialized2 input2;
               ToolEnd output] in
  CacheHandler.adds (ToolsHandler.cache h')
  = (CacheHandler.adds (ToolsHandler.cache h)
       ++ (if bool_decide (name2 = PyStr CacheTools_name) then []
           else [(name2, PyStr input2, output)]))%list.
Proof.
  intros Hq1 Hn2 Hr2 Ho h'. subst h'. unfold handle_all. simpl.
  rewrite (start_qualifies h), Hq1.
  rewrite on_tool_start_records.
  2:{ unfold ToolsHandler.dict_get. by rewrite Hn2. }
  unfold ToolsHandler.dict_get. rewrite Hn2. simpl.
  fold (tools_usage name2 input2). rewrite end_on_record. simpl.
  rewrite Ho. simpl.
  destruct (bool_decide (name2 = PyStr CacheTools_name)); simpl; [|done].
  by rewrite (right_id_L [] (++)).
Qed.

(** X2: the cache-lookup tool is never cached: after a start for the tool
    named [CacheTools().name], an end returns normally and leaves the
    Cache Store as it was, whatever the output. *)
Theorem X2_cache_tool_not_cached (h : ToolsHandler.t)
    (serialized : gmap string PyVal) (input_str output : string) :
  serialized !! "name" = Some (PyStr CacheTools_name) →
  CacheTools_name ≠ "invalid_tool" → CacheTools_name ≠ "_Exception" →
  on_end (ToolsHandler.on_tool_start h serialized input_str) output
  = (Ret (),
     ToolsHandler.mk (tools_usage (PyStr CacheTools_name) input_str)
       (ToolsHandler.cache h)).
Proof.
  intros Hn Hr1 Hr2.
  assert (ToolsHandler.dict_get serialized "name" = PyStr CacheTools_name)
    as Hget by (unfold ToolsHandler.dict_get; by rewrite Hn).
  rewrite on_tool_start_records.
  2:{ rewrite Hget. unfold reserved. rewrite !elem_of_cons, elem_of_nil.
      intros [?|[?|[]]]; congruence. }
  rewrite Hget. fold (tools_usage (PyStr CacheTools_name) input_str).
  rewrite end_on_record. rewrite bool_decide_eq_true_2 by done.
  by rewrite andb_false_r.
Qed.

(** X3: a start whose [serialized] has no "name" is recorded under the
    tool [None], and the clean end that follows caches its output under
    the key (None, input). *)
Theorem X3_nameless_tool_cached_under_none (h : ToolsHandler.t)
    (serialized : gmap string PyVal) (input_str output : string) :
  serialized !! "name" = None →
  ToolsHandler.no_failure_signal output = true →
  on_end (ToolsHandler.on_tool_start h serialized input_str) output
  = (Ret (),
     ToolsHandler.mk (tools_usage PyNone input_str)
       (CacheHandler.add PyNone (PyStr input_str) output
          (ToolsHandler.cache h))).
Proof.
  intros Hn Ho.
  assert (ToolsHandler.dict_get serialized "name" = PyNone) as Hget
    by (unfold ToolsHandler.dict_get; by rewrite Hn).
  rewrite on_tool_start_records.
  2:{ rewrite Hget. unfold reserved. rewrite !elem_of_cons, elem_of_nil.
      intros [?|[?|[]]]; congruence. }
  rewrite Hget. fold (tools_usage PyNone input_str).
  rewrite end_on_record. by rewrite Ho.
Qed.

(** X4: an end does not use up the record: after one recorded start for
    a tool other than the cache-lookup tool, two clean ends make two
    [add]s for the same (tool, input) pair, one for each output, in
    order; for the cache-lookup tool neither end makes an [add]. *)
Theorem X4_record_not_consumed (h : ToolsHandler.t)
    (serialized : gmap string PyVal) (input_str output1 output2 : string)
    (name : PyVal) :
  serialized !! "name" = Some name →
  name ∉ reserved →
  ToolsHandler.no_failure_signal output1 = true →
  ToolsHandler.no_failure_signal output2 = true →
  let h' := handle_all CacheTools_name h
              [ToolStart serialized input_str; ToolEnd output1;
               ToolEnd output2] in
  CacheHandler.adds (ToolsHandler.cache h')
  = (CacheHandler.adds (ToolsHandler.cache h)
       ++ (if bool_decide (name = PyStr CacheTools_name) then []
           else [(name, PyStr input_str, output1);
                 (name, PyStr input_str, output2)]))%list.
Proof.
  intros Hn Hr Ho1 Ho2 h'. subst h'. unfold handle_all. simpl.
  rewrite on_tool_start_records.
  2:{ unfold ToolsHandler.dict_get. by rewrite Hn. }
  unfold ToolsHandler.dict_get. rewrite Hn. simpl.
  fold (tools_usage name input_str). rewrite end_on_record. simpl.
  rewrite Ho1. simpl.
  destruct (bool_decide (name = PyStr CacheTools_name)) eqn:Hc; simpl.
  - rewrite end_on_record. simpl. rewrite Ho2, Hc. simpl.
    by rewrite (right_id_L [] (++)).
  - rewrite end_on_record. simpl. rewrite Ho2, Hc. simpl.
    by rewrite <- (assoc_L (++)).
Qed.

Lemma handle_all_snoc (h : ToolsHandler.t) (es : list tool_event)
    (e : tool_event) :
  handle_all CacheTools_name h (es ++ [e])
  = handle CacheTools_name (handle_all CacheTools_name h es) e.
Proof. unfold handle_all. by rewrite foldl_app. Qed.

Lemma qualifies_spec (serialized : gmap string PyVal) (input_str : string) :
  qualifies (ToolStart serialized input_str) = true
  ↔ ToolsHandler.dict_get serialized "name" ∉ reserved.
Proof.
  unfold qualifies.
  change [PyStr "invalid_tool"; PyStr "_Exception"] with reserved.
  rewrite py_in_reserved, negb_true_iff. apply bool_decide_eq_false.
Qed.

Lemma end_keeps_record (h : ToolsHandler.t) (output : string) :
  ToolsHandler.last_used_tool (on_end h output).2
  = ToolsHandler.last_used_tool h.
Proof.
  unfold ToolsHandler.on_tool_end.
  destruct (ToolsHandler.no_failure_signal output); [|done].
  destruct (ToolsHandler.dict_item _ "tool") as [t|]; [|done].
  destruct (negb _); [|done]. simpl.
  by destruct (ToolsHandler.dict_item _ "input").
Qed.

Lemma end_on_empty (h : ToolsHandler.t) (output : string) :
  ToolsHandler.last_used_tool h = ∅ →
  on_end h output
  = (if ToolsHandler.no_failure_signal output
     then Raise (KeyError "tool") else Ret (), h).
Proof.
  intros He. unfold ToolsHandler.on_tool_end, ToolsHandler.dict_item.
  rewrite He. by destruct (ToolsHandler.no_failure_signal output).
Qed.

Lemma end_on_usage (h : ToolsHandler.t) (tool : PyVal)
    (input_str output : string) :
  ToolsHandler.last_used_tool h = tools_usage tool input_str →
  on_end h output
  = (Ret (),
     ToolsHandler.mk (ToolsHandler.last_used_tool h)
       (if ToolsHandler.no_failure_signal output
           && negb (bool_decide (tool = PyStr CacheTools_name))
        then CacheHandler.add tool (PyStr input_str) output
               (ToolsHandler.cache h)
        else ToolsHandler.cache h)).
Proof.
  intros Hu. destruct h as [r c]. simpl in *. subst r.
  apply end_on_record.
Qed.

(** The record after a stream of callbacks on a fresh handler. *)
Lemma record_shape (cache : CacheHandler.t) (es : list tool_event) :
  let h := handle_all CacheTools_name (ToolsHandler.__init__ cache) es in
  if forallb (λ e, negb (qualifies e)) es
  then ToolsHandler.last_used_tool h = ∅
  else ∃ tool input_str,
         ToolsHandler.last_used_tool h = tools_usage tool input_str
         ∧ from_start es tool input_str.
Proof.
  induction es as [|e es IH] using rev_ind; [done|].
  cbv zeta in *. rewrite handle_all_snoc, forallb_app.
  cbn [forallb handle]. rewrite andb_true_r.
  set (h := handle_all CacheTools_name (ToolsHandler.__init__ cache) es) in *.
  assert (∀ t i, from_start es t i → from_start (es ++ [e]) t i) as Hmono.
  { intros t i (ser & Hin & Hget & Hr). exists ser.
    rewrite elem_of_app. auto. }
  destruct e as [ser inp|o]; cbn [handle].
  - rewrite start_qualifies.
    destruct (qualifies (ToolStart ser inp)) eqn:Hq; cbn [negb].
    + rewrite andb_false_r. eexists _, _. split; [done|].
      exists ser. rewrite elem_of_app, list_elem_of_singleton.
      split_and!; [by right|done|by apply (qualifies_spec ser inp)].
    + rewrite andb_true_r. destruct (forallb _ es); [done|].
      destruct IH as (t & i & ? & ?). eauto.
  - rewrite end_keeps_record. cbn [qualifies negb]. rewrite andb_true_r.
    destruct (forallb _ es); [done|].
    destruct IH as (t & i & ? & ?). eauto.
Qed.

(** X5: on a handler that has received any stream of callbacks since it
    was constructed, an end raises exactly when its output is clean and
    no start of the stream was recorded, and then it is [KeyError] on
    "tool"; in particular it never fails on the key "input". *)
Theorem X5_end_raises_only_before_first_start (cache : CacheHandler.t)
    (es : list tool_event) (output : string) :
  (on_end (handle_all CacheTools_name (ToolsHandler.__init__ cache) es)
     output).1
  = if ToolsHandler.no_failure_signal output
       && forallb (λ e, negb (qualifies e)) es
    then Raise (KeyError "tool")
    else Ret ().
Proof.
  pose proof (record_shape cache es) as Hshape. cbv zeta in Hshape.
  destruct (forallb _ es).
  - rewrite end_on_empty by done. by rewrite andb_true_r.
  - destruct Hshape as (t & i & Hu & _).
    rewrite (end_on_usage _ t i) by done. by rewrite andb_false_r.
Qed.

(** X6: whatever callbacks a fresh handler receives, the [add] calls
    already in the log stay, and every [add] it makes is sound: the tool
    was recorded by a start of the stream (so it is not a reserved name)
    together with that input, it is not the cache-lookup tool, and the
    output came with an end of the stream and carries no failure
    signal. *)
Theorem X6_every_add_is_sound (cache : CacheHandler.t)
    (es : list tool_event) :
  ∃ new,
    CacheHandler.adds
      (ToolsHandler.cache
         (handle_all CacheTools_name (ToolsHandler.__init__ cache) es))
    = (CacheHandler.adds cache ++ new)%list
    ∧ Forall (sound_add CacheTools_name es) new.
Proof.
  induction es as [|e es (new & Hadds & Hnew)] using rev_ind.
  { exists []. split; [by rewrite (right_id_L [] (++))|done]. }
  rewrite handle_all_snoc.
  pose proof (record_shape cache es) as Hshape. cbv zeta in Hshape.
  set (h := handle_all CacheTools_name (ToolsHandler.__init__ cache) es) in *.
  assert (Forall (sound_add CacheTools_name (es ++ [e])) new) as Hnew'.
  { eapply List.Forall_impl; [|exact Hnew].
    intros [[t i] o] (Hc & Ho & He & Hs).
    destruct Hs as (inp & -> & ser & Hin & Hget & Hr).
    split_and!; [done|done|rewrite elem_of_app; auto|].
    exists inp. split; [done|]. exists ser. rewrite elem_of_app. auto. }
  destruct e as [ser inp|o]; cbn [handle].
  - exists new. split; [|done]. rewrite start_qualifies.
    by destruct (qualifies _).
  - destruct (forallb _ es).
    + rewrite end_on_empty by done. by exists new.
    + destruct Hshape as (t & i & Hu & ser & Hin & Hget & Hr).
      rewrite (end_on_usage _ t i) by done. simpl.
      destruct (ToolsHandler.no_failure_signal o) eqn:Ho; simpl;
        [|by exists new].
      destruct (bool_decide_reflect (t = PyStr CacheTools_name)) as [Ht|Ht];
        simpl; [by exists new|].
      exists (new ++ [(t, PyStr i, o)])%list. split.
      * by rewrite Hadds, (assoc_L (++)).
      * apply Forall_app. split; [done|]. apply Forall_singleton.
        split_and!; [done|done|rewrite elem_of_app, list_elem_of_singleton; auto|].
        exists i. split; [done|]. exists ser. rewrite elem_of_app. auto.
Qed.

End ToolsHandlerStream.

Lemma X1_witness :
  CacheHandler.adds
    (ToolsHandler.cache
       (handle_all "Hit Cache" (ToolsHandler.__init__ CacheHandler.empty)
          [ToolStart {["name" := PyStr "Search"]} "cats";
           ToolStart {["name" := PyStr "Calculator"]} "6*7";
           ToolEnd "42"]))
  = [(PyStr "Calculator", PyStr "6*7", "42")].
Proof.
  refine (X1_last_start_wins "Hit Cache"
            (ToolsHandler.__init__ CacheHandler.empty)
            {["name" := PyStr "Search"]} {["name" := PyStr "Calculator"]}
            "cats" "6*7" "42" (PyStr "Calculator") _ _ _ _);
    try reflexivity.
  unfold reserved. rewrite !elem_of_cons, elem_of_nil.
  intros [?|[?|[]]]; discriminate.
Defined.

Lemma X2_witness :
  ToolsHandler.on_tool_end "Hit Cache"
    (ToolsHandler.on_tool_start (ToolsHandler.__init__ CacheHandler.empty)
       {["name" := PyStr "Hit Cache"]} "tool:Search|input:cats") "meow"
  = (Ret (),
     ToolsHandler.mk
       (tools_usage (PyStr "Hit Cache") "tool:Search|input:cats")
       CacheHandler.empty).
Proof.
  refine (X2_cache_tool_not_cached "Hit Cache"
            (ToolsHandler.__init__ CacheHandler.empty)
            {["name" := PyStr "Hit Cache"]} "tool:Search|input:cats" "meow"
            _ _ _); [reflexivity|discriminate..].
Defined.

Lemma X3_witness :
  ToolsHandler.on_tool_end "Hit Cache"
    (ToolsHandler.on_tool_start (ToolsHandler.__init__ CacheHandler.empty)
       {["id" := PyStr "7"]} "cats") "meow"
  = (Ret (),
     ToolsHandler.mk (tools_usage PyNone "cats")
       (CacheHandler.add PyNone (PyStr "cats") "meow" CacheHandler.empty)).
Proof.
  refine (X3_nameless_tool_cached_under_none "Hit Cache"
            (ToolsHandler.__init__ CacheHandler.empty)
            {["id" := PyStr "7"]} "cats" "meow" _ _); reflexivity.
Defined.

Lemma X4_witness :
  CacheHandler.adds
    (ToolsHandler.cache
       (handle_all "Hit Cache" (ToolsHandler.__init__ CacheHandler.empty)
          [ToolStart {["name" := PyStr "Calculator"]} "6*7";
           ToolEnd "41"; ToolEnd "42"]))
  = [(PyStr "Calculator", PyStr "6*7", "41");
     (PyStr "Calculator", PyStr "6*7", "42")].
Proof.
  refine (X4_record_not_consumed "Hit Cache"
            (ToolsHandler.__init__ CacheHandler.empty)
            {["name" := PyStr "Calculator"]} "6*7" "41" "42"
            (PyStr "Calculator") _ _ _ _);
    try reflexivity.
  unfold reserved. rewrite !elem_of_cons, elem_of_nil.
  intros [?|[?|[]]]; discriminate.
Defined.

(** ** More on the delegation tools *)

Lemma split_pieces_no_sep (sep : ascii) (s : string) :
  Forall (λ piece, count_char sep piece = 0) (split sep s).
Proof.
  induction s as [|c s IH]; simpl; [by repeat constructor|].
  case_decide as Hc; [by constructor|].
  destruct (split sep s) as [|piece pieces].
  - repeat constructor. simpl. by rewrite decide_False.
  - apply Forall_cons_1 in IH as [Hp Hps]. constructor; [|done].
    simpl. by rewrite decide_False.
Qed.

Lemma split_three_inv (command agent task context : string) :
  split "|" command = [agent; task; context] →
  command = agent +:+ "|" +:+ task +:+ "|" +:+ context
  ∧ count_char "|" agent = 0 ∧ count_char "|" task = 0
  ∧ count_char "|" context = 0.
Proof.
  intros Hs. pose proof (join_split "|" command) as Hj.
  pose proof (split_pieces_no_sep "|" command) as Hp.
  rewrite Hs in Hj, Hp. split; [by rewrite <- Hj|].
  apply Forall_cons_1 in Hp as [? Hp]. apply Forall_cons_1 in Hp as [? Hp].
  by apply Forall_cons_1 in Hp as [? _].
Qed.

(** X7: every call of [_execute] ends in one of three ways: the
    missing-parameter string, the unknown-coworker message, or the call
    of a known agent; and it reaches an agent only with a command that is
    exactly [role|task|context] for that agent's role, with the three
    parts non-empty and free of "|", forwarded as they are.  So an agent
    whose role is empty or contains "|" can never be delegated to. *)
Theorem X7_delegation_trichotomy (self : AgentTools.t) (command : string) :
  AgentTools._execute self command
  = Ret (I18N.errors (AgentTools.i18n self) "agent_tool_missing_param")
  ∨ AgentTools._execute self command
    = str_format
        (I18N.errors (AgentTools.i18n self) "agent_tool_unexsiting_coworker")
        [("coworkers", join ", " (Agent.role <$> AgentTools.agents self))]
  ∨ ∃ a task context,
      a ∈ AgentTools.agents self
      ∧ command = Agent.role a +:+ "|" +:+ task +:+ "|" +:+ context
      ∧ Agent.role a ≠ "" ∧ task ≠ "" ∧ context ≠ ""
      ∧ count_char "|" (Agent.role a) = 0 ∧ count_char "|" task = 0
      ∧ count_char "|" context = 0
      ∧ AgentTools._execute self command
        = Agent.call (Agent.execute_task a task (Some context) None).
Proof.
  unfold AgentTools._execute.
  destruct (split "|" command) as [|r [|t [|c [|? ?]]]] eqn:Hs; auto.
  apply split_three_inv in Hs as (-> & Hr & Ht & Hc).
  destruct (bool_decide_reflect (r = "")) as [|Hre]; [auto|].
  destruct (bool_decide_reflect (t = "")) as [|Hte]; [auto|].
  destruct (bool_decide_reflect (c = "")) as [|Hce]; [auto|]. simpl.
  destruct (filter _ _) as [|a l] eqn:Hf; [auto|].
  assert (a ∈ filter (λ x, Agent.role x = r) (AgentTools.agents self))
    as [Hrole Hin]%list_elem_of_filter by (rewrite Hf; left).
  right. right. exists a, t, c. subst r. by split_and!.
Qed.

(** X8: delegation does not raise on its own account: when the
    unknown-coworker template is [pre{coworkers}post] and no known
    agent's [execute_task] raises, [_execute] returns a string for every
    command whatsoever. *)
Theorem X8_delegation_always_returns (self : AgentTools.t)
    (pre post command : string) :
  I18N.errors (AgentTools.i18n self) "agent_tool_unexsiting_coworker"
  = pre +:+ "{coworkers}" +:+ post →
  brace_free pre → brace_free post →
  (∀ a task context, a ∈ AgentTools.agents self →
     ∃ r, Agent.execute_task a task context None = inl r) →
  ∃ r, AgentTools._execute self command = Ret r.
Proof.
  intros Htpl Hpre Hpost Hagents. unfold AgentTools._execute.
  destruct (split "|" command) as [|r [|t [|c [|? ?]]]]; try by eexists.
  destruct (_ || _); [by eexists|].
  destruct (filter _ _) as [|a l] eqn:Hf.
  - rewrite Htpl.
    change (pre +:+ "{coworkers}" +:+ post)
      with (pre +:+ String "{" ("coworkers" +:+ String "}" post)).
    rewrite (str_format_one_field _ pre "coworkers" post
               (join ", " (Agent.role <$> AgentTools.agents self)))
      by done.
    by eexists.
  - assert (a ∈ filter (λ x, Agent.role x = r) (AgentTools.agents self))
      as [_ Hin]%list_elem_of_filter by (rewrite Hf; left).
    destruct (Hagents a t (Some c) Hin) as [res ->]. by exists res.
Qed.

(** X9: [tools] offers exactly two tools, first "Delegate work to
    co-worker" run by [delegate_work], then "Ask question to co-worker"
    run by [ask_question]; with templates of the form [pre{coworkers}post]
    each description is its template with the known roles, joined by ", "
    in the order of the agents, in place of the field. *)
Theorem X9_tools_offered (self : AgentTools.t)
    (pre1 post1 pre2 post2 : string) :
  I18N.tools (AgentTools.i18n self) "delegate_work"
  = pre1 +:+ "{coworkers}" +:+ post1 →
  I18N.tools (AgentTools.i18n self) "ask_question"
  = pre2 +:+ "{coworkers}" +:+ post2 →
  brace_free pre1 → brace_free post1 → brace_free pre2 → brace_free post2 →
  let roles := join ", " (Agent.role <$> AgentTools.agents self) in
  AgentToolsList.tools self
  = Ret [DelegationTool.mk (AgentTools.delegate_work self)
           "Delegate work to co-worker" (pre1 +:+ roles +:+ post1);
         DelegationTool.mk (AgentTools.ask_question self)
           "Ask question to co-worker" (pre2 +:+ roles +:+ post2)].
Proof.
  intros H1 H2 Hpre1 Hpost1 Hpre2 Hpost2 roles.
  unfold AgentToolsList.tools. rewrite H1, H2. fold roles.
  change (pre1 +:+ "{coworkers}" +:+ post1)
    with (pre1 +:+ String "{" ("coworkers" +:+ String "}" post1)).
  change (pre2 +:+ "{coworkers}" +:+ post2)
    with (pre2 +:+ String "{" ("coworkers" +:+ String "}" post2)).
  rewrite (str_format_one_field _ pre1 "coworkers" post1 roles) by done.
  simpl.
  by rewrite (str_format_one_field _ pre2 "coworkers" post2 roles).
Qed.

(** ** More on tasks *)

(** X10: validation is idempotent and touches nothing but [tools]: running
    [check_tools] on a validated task changes nothing, so the tools come
    from the agent once and for all. *)
Theorem X10_check_tools_idempotent (fields : Task.t) :
  Task.check_tools (Task.check_tools fields) = Task.check_tools fields
  ∧ Task.check_tools fields
    = Task.with_tools (Task.tools (Task.check_tools fields)) fields.
Proof.
  unfold Task.check_tools.
  destruct fields as [i th d cb [a|] eo ctx asy out tl]; simpl; [|done].
  destruct tl as [|x tl]; destruct (Agent.tools a) as [|y l] eqn:Ha; simpl;
    rewrite ?Ha; simpl; by rewrite ?Ha.
Qed.

(** Without an expected output, [None] or the empty string alike,
    the prompt is the description itself, with no newline added, and the
    localization provider is not consulted, so [_prompt] cannot raise. *)
Lemma prompt_without_expected_output (me : Task.t) :
  Task.expected_output me = None ∨ Task.expected_output me = Some "" →
  Task._prompt me = Ret (Task.description me).
Proof. unfold Task._prompt. by intros [->| ->]. Qed.

(** X11: with an expected output and a localized slice of the form
    [pre{expected_output}post], the prompt is the description, a
    newline, and the slice with the expected output in place of the
    field. *)
Theorem X11_prompt_with_expected_output (me : Task.t)
    (expected pre post : string) :
  Task.expected_output me = Some expected → expected ≠ "" →
  I18N.slice (Task.i18n me) "expected_output"
  = pre +:+ "{expected_output}" +:+ post →
  brace_free pre → brace_free post →
  Task._prompt me
  = Ret (Task.description me +:+ newline +:+ pre +:+ expected +:+ post).
Proof.
  intros He Hne Hs Hpre Hpost. unfold Task._prompt. rewrite He, Hs.
  destruct expected as [|c e]; [done|]. cbn [str_truthy default].
  change (pre +:+ "{expected_output}" +:+ post)
    with (pre +:+ String "{" ("expected_output" +:+ String "}" post)).
  by rewrite (str_format_one_field _ pre "expected_output" post (String c e)).
Qed.

Lemma X8_witness :
  ∃ r,
    AgentTools._execute
      (AgentTools.mk [Scenario.writer; Scenario.oracle]
         (I18N.mk (λ k, k) (λ _, "Unknown. Options: {coworkers}.") (λ k, k)))
      "Nobody|x|y"
    = Ret r.
Proof.
  refine (X8_delegation_always_returns
            (AgentTools.mk [Scenario.writer; Scenario.oracle]
               (I18N.mk (λ k, k) (λ _, "Unknown. Options: {coworkers}.")
                  (λ k, k)))
            "Unknown. Options: " "." "Nobody|x|y" _ _ _ _);
    try reflexivity; try (split; reflexivity).
  intros a task context Ha. cbn [AgentTools.agents] in Ha.
  rewrite !elem_of_cons, elem_of_nil in Ha.
  destruct Ha as [->|[->|[]]]; by eexists.
Defined.

Lemma X9_witness :
  AgentToolsList.tools
    (AgentTools.mk [Scenario.writer; Scenario.oracle]
       (I18N.mk (λ k, k) (λ k, k) (λ k, k +:+ ": {coworkers}")))
  = Ret [DelegationTool.mk
           (AgentTools.delegate_work
              (AgentTools.mk [Scenario.writer; Scenario.oracle]
                 (I18N.mk (λ k, k) (λ k, k) (λ k, k +:+ ": {coworkers}"))))
           "Delegate work to co-worker" "delegate_work: Writer, Oracle";
         DelegationTool.mk
           (AgentTools.ask_question
              (AgentTools.mk [Scenario.writer; Scenario.oracle]
                 (I18N.mk (λ k, k) (λ k, k) (λ k, k +:+ ": {coworkers}"))))
           "Ask question to co-worker" "ask_question: Writer, Oracle"].
Proof.
  refine (X9_tools_offered
            (AgentTools.mk [Scenario.writer; Scenario.oracle]
               (I18N.mk (λ k, k) (λ k, k) (λ k, k +:+ ": {coworkers}")))
            "delegate_work: " "" "ask_question: " "" _ _ _ _ _ _);
    try reflexivity; split; reflexivity.
Defined.

Lemma X11_witness :
  Task._prompt
    (Task.mk Scenario.i18n None "Summarise" None None (Some "three lines")
       None None None [])
  = Ret ("Summarise" +:+ newline +:+ "Expected output: three lines").
Proof.
  refine (X11_prompt_with_expected_output
            (Task.mk Scenario.i18n None "Summarise" None None
               (Some "three lines") None None None [])
            "three lines" "Expected output: " "" _ _ _ _ _);
    try reflexivity; try discriminate; split; reflexivity.
Defined.

(** *** The worlds [execute] leaves *)

Lemma execute_args_world (sch : Task.schedule) (self : Task.ref)
    (agent : option Agent.t) (context : option string)
    (tools : option (list Tool.t)) (w : Task.world) :
  ∃ ys, (Task.execute_args sch self agent context tools w).2
        = Task.run_threads ys w.
Proof.
  unfold Task.execute_args.
  unfold mbind at 1, Task.M_bind at 1, Task.bind at 1, Task.get_task at 1.
  destruct (Task.tasks w !! self) as [me|]; [|by exists []].
  destruct (Task.or_else agent (Task.agent me)) as [a|]; [|by exists []].
  unfold mbind, Task.M_bind, Task.bind, Task.get_task, Task.lift, Task.ret.
  destruct (Task.context me) as [[|u l]|].
  - exists []. destruct (Task.tasks w !! self) as [me'|]; [|done].
    by destruct (Task._prompt me').
  - destruct (gather_world (u :: l) sch w) as [ys Hys].
    destruct (Task.gather sch (u :: l) w) as [[[sch1 rs]|e] w1];
      simpl in Hys; subst w1; exists ys; [|done].
    destruct (Task.tasks _ !! self) as [me'|]; [|done].
    by destruct (Task._prompt me').
  - exists []. destruct (Task.tasks w !! self) as [me'|]; [|done].
    by destruct (Task._prompt me').
Qed.

Lemma execute_args_self (sch : Task.schedule) (self : Task.ref)
    (me : Task.t) (agent : option Agent.t) (context : option string)
    (tools : option (list Tool.t)) (w : Task.world) :
  Task.tasks w !! self = Some me →
  ∃ me1, Task.tasks (Task.execute_args sch self agent context tools w).2
           !! self = Some me1
         ∧ same_static me me1.
Proof.
  intros Hme. destruct (execute_args_world sch self agent context tools w)
    as [ys ->]. by apply run_threads_static.
Qed.

Lemma _execute_world (self : Task.ref) (me : Task.t) (a : Agent.t)
    (p : string) (c : option string) (tl : list Tool.t) (w : Task.world) :
  Task.tasks w !! self = Some me →
  Task._execute self a p c tl w
  = (backend_call a p c tl,
     Task.mkWorld
       (match backend_call a p c tl with
        | Ret res =>
            <[self := Task.with_output
                        (Some (TaskOutput.mk (Task.description me) res)) me]>
              (Task.tasks w)
        | Raise _ => Task.tasks w
        end)
       (Task.threads w)
       (Task.trace w ++ execution_events a p c tl me)).
Proof.
  intros Hme. rewrite _execute_unfold, Hme. cbv zeta.
  unfold execution_events.
  destruct (backend_call a p c tl) as [res|e]; [|done].
  unfold Task.log, Task.set_tasks.
  destruct (Task.callback me); simpl; [|done].
  by rewrite <- (assoc_L (++)).
Qed.

(** X12: a synchronous [execute] whose backend call returns [res] stores
    [TaskOutput(description, res)] as the task's output, touches no other
    task and no worker, and adds to the trace the backend call followed,
    when the task has a callback, by one call of it with that output;
    when the task has no callback, [execute] returns [res]. *)
Theorem X12_sync_execute_records_output (sch : Task.schedule)
    (self : Task.ref) (me : Task.t) (agent : option Agent.t)
    (context : option string) (tools : option (list Tool.t))
    (w w1 : Task.world) (sch' : Task.schedule) (a : Agent.t) (p : string)
    (c : option string) (tl : list Tool.t) (res : string) :
  Task.tasks w !! self = Some me →
  Task.flag (Task.async_execution me) = false →
  Task.execute_args sch self agent context tools w
  = (Ret (sch', (a, p, c, tl)), w1) →
  backend_call a p c tl = Ret res →
  let out := TaskOutput.mk (Task.description me) res in
  let w' := (Task.execute sch self agent context tools w).2 in
  ∃ me1,
    Task.tasks w1 !! self = Some me1
    ∧ Task.tasks w' = <[self := Task.with_output (Some out) me1]> (Task.tasks w1)
    ∧ Task.output <$> Task.tasks w' !! self = Some (Some out)
    ∧ Task.threads w' = Task.threads w1
    ∧ Task.trace w'
      = (Task.trace w1
           ++ Task.ExecuteTask (Agent.role a) p c (Some tl)
              :: match Task.callback me with
                 | Some cb => [Task.Callback cb out]
                 | None => []
                 end)%list
    ∧ (Task.callback me = None →
       (Task.execute sch self agent context tools w).1 = Ret (Some res)).
Proof.
  intros Hme Hsync Hargs Hres out w'.
  destruct (execute_args_self sch self me agent context tools w Hme)
    as (me1 & Hme1 & Hst).
  rewrite Hargs in Hme1. simpl in Hme1.
  assert (Task.description me1 = Task.description me
          ∧ Task.callback me1 = Task.callback me
          ∧ Task.async_execution me1 = Task.async_execution me)
    as (Hd & Hcb & Ha) by (rewrite Hst; by destruct me).
  subst w'.
  rewrite (execute_unfold _ _ _ _ _ _ _ _ _ _ _ _ _ Hargs Hme1), Ha, Hsync.
  rewrite (_execute_world _ me1) by done. cbv zeta. simpl.
  unfold execution_events. rewrite Hres, Hd, Hcb. simpl.
  exists me1. split_and!; try done.
  simpl. by rewrite lookup_insert_eq.
Qed.

(** X13: a synchronous [execute] whose backend call raises lets the
    exception through and assigns nothing: no task changes, the callback
    is not called, and the trace only gains the backend call. *)
Theorem X13_sync_execute_backend_raises (sch : Task.schedule)
    (self : Task.ref) (me : Task.t) (agent : option Agent.t)
    (context : option string) (tools : option (list Tool.t))
    (w w1 : Task.world) (sch' : Task.schedule) (a : Agent.t) (p : string)
    (c : option string) (tl : list Tool.t) (payload : string) :
  Task.tasks w !! self = Some me →
  Task.flag (Task.async_execution me) = false →
  Task.execute_args sch self agent context tools w
  = (Ret (sch', (a, p, c, tl)), w1) →
  Agent.execute_task a p c (Some tl) = inr payload →
  Task.execute sch self agent context tools w
  = (Raise (BackendError payload),
     Task.mkWorld (Task.tasks w1) (Task.threads w1)
       (Task.trace w1 ++ [Task.ExecuteTask (Agent.role a) p c (Some tl)])).
Proof.
  intros Hme Hsync Hargs Hres.
  destruct (execute_args_self sch self me agent context tools w Hme)
    as (me1 & Hme1 & Hst).
  rewrite Hargs in Hme1. simpl in Hme1.
  assert (Task.async_execution me1 = Task.async_execution me) as Ha
    by (rewrite Hst; by destruct me).
  rewrite (execute_unfold _ _ _ _ _ _ _ _ _ _ _ _ _ Hargs Hme1), Ha, Hsync.
  rewrite (_execute_world _ me1) by done. cbv zeta.
  unfold execution_events, backend_call. by rewrite Hres.
Qed.

Lemma run_thread_alive (x : Task.tid) (w : Task.world) (th : Task.Thread) :
  alive w x th →
  Task.run_thread x w
  = (Task._execute (Task.target th) (Task.th_agent th) (Task.th_prompt th)
       (Task.th_context th) (Task.th_tools th)
       (Task.set_threads (<[x := Task.finish th]> (Task.threads w)) w)).2.
Proof. intros [Hx Hf]. unfold Task.run_thread. by rewrite Hx, Hf. Qed.

Lemma spawned_alive (self : Task.ref) (me : Task.t) (a : Agent.t)
    (p : string) (c : option string) (tl : list Tool.t) (w : Task.world) :
  alive (spawned self me a p c tl w) (length (Task.threads w))
    (Task.mkThread self a p c tl false).
Proof. split; [|done]. simpl. by rewrite list_lookup_middle. Qed.

(** X14: an asynchronous [execute] returns at once with no value: it
    makes no backend call and assigns no output, it only starts a worker
    and stores its handle.  Once that worker is joined, the task's output
    and the trace are those the same call would have produced
    synchronously, whether the backend returns or raises. *)
Theorem X14_async_then_join_like_sync (sch : Task.schedule)
    (self : Task.ref) (me : Task.t) (agent : option Agent.t)
    (context : option string) (tools : option (list Tool.t))
    (w w1 : Task.world) (sch' : Task.schedule) (a : Agent.t) (p : string)
    (c : option string) (tl : list Tool.t) :
  Task.tasks w !! self = Some me →
  Task.flag (Task.async_execution me) = true →
  Task.execute_args sch self agent context tools w
  = (Ret (sch', (a, p, c, tl)), w1) →
  let x := length (Task.threads w1) in
  let wa := (Task.execute sch self agent context tools w).2 in
  let wj := Task.run_thread x wa in
  let ws := (Task._execute self a p c tl w1).2 in
  (Task.execute sch self agent context tools w).1 = Ret None
  ∧ Task.trace wa = Task.trace w1
  ∧ Task.output <$> Task.tasks wa !! self
    = Task.output <$> Task.tasks w1 !! self
  ∧ Task.thread <$> Task.tasks wa !! self = Some (Some x)
  ∧ alive wa x (Task.mkThread self a p c tl false)
  ∧ (∀ r, Task.tasks wj !! r
          = if decide (r = self)
            then Task.with_thread (Some x) <$> Task.tasks ws !! r
            else Task.tasks ws !! r)
  ∧ Task.trace wj = Task.trace ws
  ∧ completed wj x.
Proof.
  intros Hme Hasync Hargs x wa wj ws.
  destruct (execute_args_self sch self me agent context tools w Hme)
    as (me1 & Hme1 & Hst).
  rewrite Hargs in Hme1. simpl in Hme1.
  assert (Task.async_execution me1 = Task.async_execution me) as Ha
    by (rewrite Hst; by destruct me).
  pose proof (execute_unfold _ _ _ _ _ _ _ _ _ _ _ _ _ Hargs Hme1) as Hex.
  rewrite Ha, Hasync in Hex. fold x in Hex.
  change (Task.execute sch self agent context tools w
          = (Ret None, spawned self me1 a p c tl w1)) in Hex.
  subst wj wa. rewrite Hex. cbn [fst snd].
  pose proof (spawned_alive self me1 a p c tl w1) as Halive. fold x in Halive.
  assert (Task.tasks (spawned self me1 a p c tl w1) !! self
          = Some (Task.with_thread (Some x) me1)) as Hself
    by (simpl; by rewrite lookup_insert_eq).
  split_and!; try done.
  - by rewrite Hself, Hme1.
  - by rewrite Hself.
  - intros r. rewrite (run_thread_alive _ _ _ Halive). cbn [Task.target
      Task.th_agent Task.th_prompt Task.th_context Task.th_tools].
    rewrite (_execute_world _ (Task.with_thread (Some x) me1)) by done.
    subst ws. rewrite (_execute_world _ me1) by done. cbn [snd Task.tasks].
    destruct (backend_call a p c tl) as [res|e]; simpl.
    + case_decide as Hr.
      * subst r. by rewrite !lookup_insert_eq.
      * by rewrite !lookup_insert_ne.
    + case_decide as Hr.
      * subst r. by rewrite lookup_insert_eq, Hme1.
      * by rewrite lookup_insert_ne.
  - rewrite (run_thread_alive _ _ _ Halive). cbn [Task.target
      Task.th_agent Task.th_prompt Task.th_context Task.th_tools].
    rewrite (_execute_world _ (Task.with_thread (Some x) me1)) by done.
    subst ws. by rewrite (_execute_world _ me1).
  - apply run_thread_completes. by destruct Halive as [-> _].
Qed.

(** The three kinds of world [execute] can leave: the one reached by
    letting workers complete, that one after a run of [_execute] on
    [self], or that one with a new worker for [self]. *)
Lemma execute_world_cases (sch : Task.schedule) (self : Task.ref)
    (agent : option Agent.t) (context : option string)
    (tools : option (list Tool.t)) (w : Task.world) :
  ∃ ys,
    let w1 := Task.run_threads ys w in
    let w' := (Task.execute sch self agent context tools w).2 in
    w' = w1
    ∨ (∃ me1 a p c tl,
         Task.tasks w1 !! self = Some me1
         ∧ w' = (Task._execute self a p c tl w1).2)
    ∨ (∃ me1 a p c tl,
         Task.tasks w1 !! self = Some me1
         ∧ Task.flag (Task.async_execution me1) = true
         ∧ w' = spawned self me1 a p c tl w1).
Proof.
  destruct (execute_args_world sch self agent context tools w) as [ys Hys].
  exists ys. cbv zeta.
  destruct (Task.execute_args sch self agent context tools w)
    as [[[sch' [[[a p] c] tl]]|e] w1] eqn:Hargs; simpl in Hys; subst w1.
  - destruct (Task.tasks (Task.run_threads ys w) !! self) as [me1|] eqn:Hme1.
    + rewrite (execute_unfold _ _ _ _ _ _ _ _ _ _ _ _ _ Hargs Hme1).
      destruct (Task.flag (Task.async_execution me1)) eqn:Hf.
      * right. right. by exists me1, a, p, c, tl.
      * right. left. by exists me1, a, p, c, tl.
    + left. unfold Task.execute.
      unfold mbind at 1, Task.M_bind at 1, Task.bind at 1. rewrite Hargs.
      unfold mbind at 1, Task.M_bind at 1, Task.bind at 1,
        Task.get_task at 1.
      by rewrite Hme1.
  - left. unfold Task.execute.
    unfold mbind at 1, Task.M_bind at 1, Task.bind at 1. by rewrite Hargs.
Qed.

Lemma single_worker_run_threads (ys : list Task.tid) (w : Task.world) :
  single_worker w → single_worker (Task.run_threads ys w).
Proof. intros H ups. by apply no_orphans_run_threads. Qed.

Lemma single_worker__execute (self : Task.ref) (me : Task.t) (a : Agent.t)
    (p : string) (c : option string) (tl : list Tool.t) (w : Task.world) :
  Task.tasks w !! self = Some me →
  single_worker w → single_worker (Task._execute self a p c tl w).2.
Proof.
  intros Hme Hw ups u x th Hu Hx Ht.
  rewrite (_execute_world _ me) in Hx |- * by done.
  destruct (Hw ups u x th Hu Hx Ht) as (up & Hup & Ha & Hh). cbn [snd Task.tasks].
  destruct (backend_call a p c tl) as [res|e]; [|by exists up].
  destruct (decide (u = self)) as [->|Hne].
  - rewrite lookup_insert_eq. eexists. split; [done|].
    assert (up = me) as -> by congruence. done.
  - rewrite lookup_insert_ne by done. by exists up.
Qed.

Lemma single_worker_spawned (self : Task.ref) (me : Task.t) (a : Agent.t)
    (p : string) (c : option string) (tl : list Tool.t) (w : Task.world) :
  Task.tasks w !! self = Some me →
  Task.flag (Task.async_execution me) = true →
  settled w self →
  single_worker w → single_worker (spawned self me a p c tl w).
Proof.
  intros Hme Hasync Hset Hw ups u x th Hu [Hx Hf] Ht. simpl in Hx.
  destruct (decide (x < length (Task.threads w))) as [Hlt|Hge].
  - rewrite lookup_app_l in Hx by done.
    assert (alive w x th) as Halive by done.
    assert (u ≠ self) as Hne by (intros ->; by apply (Hset x th)).
    destruct (Hw ups u x th Hu Halive Ht) as (up & Hup & Ha & Hh).
    exists up. simpl. by rewrite lookup_insert_ne.
  - rewrite lookup_app_r in Hx by lia.
    destruct (x - length (Task.threads w)) as [|n] eqn:Hn; [|done].
    injection Hx as <-. simpl in Ht. subst u.
    exists (Task.with_thread (Some (length (Task.threads w))) me). simpl.
    rewrite lookup_insert_eq. split_and!; [done..|]. f_equal. lia.
Qed.

(** X15: that every unfinished worker is the one its task holds the
    handle of is an invariant: it holds when there are no workers, a
    worker completing keeps it, and so does [execute] on a task that has
    no worker still running, however the call ends. *)
Theorem X15_single_worker_invariant (sch : Task.schedule) (self : Task.ref)
    (agent : option Agent.t) (context : option string)
    (tools : option (list Tool.t)) (w : Task.world) (y : Task.tid) :
  single_worker w →
  settled w self →
  single_worker (Task.run_thread y w)
  ∧ single_worker (Task.execute sch self agent context tools w).2
  ∧ ∀ tasks trace, single_worker (Task.mkWorld tasks [] trace).
Proof.
  intros Hw Hset. split_and!.
  - intros ups. by apply no_orphans_run_thread.
  - destruct (execute_world_cases sch self agent context tools w)
      as [ys Hcases]. cbv zeta in Hcases.
    pose proof (single_worker_run_threads ys w Hw) as Hw1.
    destruct (settled_run_threads ys w self Hset) as [Hset1 _].
    destruct Hcases as [->|[(me1 & a & p & c & tl & Hme1 & ->)
                           |(me1 & a & p & c & tl & Hme1 & Hf & ->)]].
    + done.
    + by eapply single_worker__execute.
    + by apply single_worker_spawned.
  - intros tasks trace ups u x th _ [Hx _]. done.
Qed.

(** X16: [execute] on a task never removes a task from the store, and it
    leaves alone every other task that has no worker still running: such
    a task is after the call exactly what it was before. *)
Theorem X16_execute_frame (sch : Task.schedule) (self r : Task.ref)
    (agent : option Agent.t) (context : option string)
    (tools : option (list Tool.t)) (w : Task.world) (other : Task.t) :
  Task.tasks w !! r = Some other →
  is_Some (Task.tasks (Task.execute sch self agent context tools w).2 !! r)
  ∧ (r ≠ self → settled w r →
     Task.tasks (Task.execute sch self agent context tools w).2 !! r
     = Some other).
Proof.
  intros Hr.
  destruct (execute_world_cases sch self agent context tools w)
    as [ys Hcases]. cbv zeta in Hcases.
  destruct (run_threads_static ys w r other Hr) as (other1 & Hr1 & _).
  assert (r ≠ self → settled w r →
          Task.tasks (Task.run_threads ys w) !! r = Some other) as Hframe.
  { intros _ Hset. destruct (settled_run_threads ys w r Hset) as [_ ->].
    done. }
  destruct Hcases as [->|[(me1 & a & p & c & tl & Hme1 & ->)
                         |(me1 & a & p & c & tl & Hme1 & Hf & ->)]].
  - split; [by eexists|done].
  - rewrite (_execute_world _ me1) by done. cbn [snd Task.tasks].
    destruct (backend_call a p c tl) as [res|e]; [|split; [by eexists|done]].
    split.
    + destruct (decide (r = self)) as [->|Hne].
      * rewrite lookup_insert_eq. by eexists.
      * rewrite lookup_insert_ne by done. by eexists.
    + intros Hne Hset. rewrite lookup_insert_ne by done. by apply Hframe.
  - simpl. split.
    + destruct (decide (r = self)) as [->|Hne].
      * rewrite lookup_insert_eq. by eexists.
      * rewrite lookup_insert_ne by done. by eexists.
    + intros Hne Hset. rewrite lookup_insert_ne by done. by apply Hframe.
Qed.

(** *** Chains of tasks *)

Lemma execute_args_context (sch : Task.schedule) (w : Task.world)
    (self : Task.ref) (me : Task.t) (ups : list Task.ref)
    (rs : list string) (a : Agent.t) (p : string) (agent : option Agent.t)
    (context : option string) (tools : option (list Tool.t)) :
  Task.tasks w !! self = Some me →
  Task.context me = Some ups → ups ≠ [] →
  Task.or_else agent (Task.agent me) = Some a →
  Task._prompt me = Ret p →
  no_orphans w ups →
  Forall2 (λ u r, upstream_value u w = Ret r) ups rs →
  ∃ sch' ys,
    Task.execute_args sch self agent context tools w
    = (Ret (sch', (a, p, Some (join newline rs),
                   Task.list_or tools (Task.tools me))),
       Task.run_threads ys w).
Proof.
  intros Hme Hctx Hne Ha Hp Hno Hrs.
  destruct (gather_values ups ups rs sch w Hno) as (sch' & ys & Hg & _);
    [done..|].
  destruct (run_threads_static ys w self me Hme) as (me' & Hme' & Hst).
  apply same_static_fields in Hst as (_ & _ & Htools & _ & _ & Hprompt).
  exists sch', ys. rewrite (execute_args_resolved _ _ me a) by done.
  unfold execute_with. rewrite Hctx. destruct ups as [|u l]; [done|].
  unfold mbind, Task.M_bind, Task.bind. rewrite Hg. simpl.
  unfold Task.get_task. rewrite Hme'. unfold Task.lift.
  rewrite Hprompt, Hp. simpl. by rewrite Htools.
Qed.

Lemma gather_fails (ups pre post : list Task.ref) (u : Task.ref)
    (rs : list string) (e : exn) (sch : Task.schedule) (w : Task.world) :
  no_orphans w ups → (pre ++ u :: post)%list ⊆ ups →
  Forall2 (λ u r, upstream_value u w = Ret r) pre rs →
  upstream_value u w = Raise e →
  ∃ ys, Task.gather sch (pre ++ u :: post) w
        = (Raise e, Task.run_threads ys w).
Proof.
  revert rs sch w. induction pre as [|v pre IH]; intros rs sch w Hno Hsub Hrs He.
  - assert (u ∈ ups) as Hu by (apply Hsub; left).
    destruct (read_upstream_value ups sch u w Hno Hu) as (ys & Hread & _).
    exists ys. simpl. unfold mbind, Task.M_bind, Task.bind.
    by rewrite Hread, He.
  - apply Forall2_cons_inv_l in Hrs as (r & rs' & Hr & Hrs & ->).
    assert (v ∈ ups) as Hv by (apply Hsub; left).
    destruct (read_upstream_value ups sch v w Hno Hv) as (ys & Hread & _).
    rewrite Hr in Hread.
    assert (∀ x, x ∈ (pre ++ u :: post)%list → x ∈ ups) as Hsub'
      by (intros x Hx; apply Hsub; by right).
    destruct (IH rs' (tail (tail sch)) (Task.run_threads ys w))
      as [zs Hgather].
    + by apply no_orphans_run_threads.
    + done.
    + eapply Forall2_impl_elem; [exact Hrs|]. simpl. intros u' r' Hu' Hval.
      rewrite (upstream_value_run_threads ys w ups); [done..|].
      apply Hsub'. rewrite elem_of_app. auto.
    + rewrite (upstream_value_run_threads ys w ups); [done..|].
      apply Hsub'. rewrite elem_of_app, elem_of_cons. auto.
    + exists (ys ++ zs)%list. rewrite run_threads_app.
      simpl. unfold mbind, Task.M_bind, Task.bind.
      rewrite Hread. simpl. by rewrite Hgather.
Qed.

(** X17: when the upstream tasks before [u] can be read and reading [u]
    raises, [execute] raises that same exception for every schedule of
    the workers, and all that has happened is that workers completed: the
    task's own backend was not called and nothing was assigned. *)
Theorem X17_upstream_failure_stops_execute (sch : Task.schedule)
    (w : Task.world) (self : Task.ref) (me : Task.t)
    (pre post : list Task.ref) (u : Task.ref) (rs : list string) (e : exn)
    (a : Agent.t) (agent : option Agent.t) (context : option string)
    (tools : option (list Tool.t)) :
  Task.tasks w !! self = Some me →
  Task.context me = Some (pre ++ u :: post)%list →
  Task.or_else agent (Task.agent me) = Some a →
  no_orphans w (pre ++ u :: post) →
  Forall2 (λ u r, upstream_value u w = Ret r) pre rs →
  upstream_value u w = Raise e →
  ∃ ys, Task.execute sch self agent context tools w
        = (Raise e, Task.run_threads ys w).
Proof.
  intros Hme Hctx Ha Hno Hrs He.
  destruct (gather_fails (pre ++ u :: post) pre post u rs e sch w)
    as [ys Hg]; [done..|].
  exists ys. unfold Task.execute.
  unfold mbind at 1, Task.M_bind at 1, Task.bind at 1.
  rewrite (execute_args_resolved _ _ me a) by done.
  unfold execute_with. rewrite Hctx.
  destruct (pre ++ u :: post)%list as [|v l] eqn:Hl.
  { by destruct pre. }
  unfold mbind, Task.M_bind, Task.bind. by rewrite Hg.
Qed.

(** X18: an asynchronous upstream task that was never started has no
    handle to join: reading it raises [AttributeError] on "join", whether
    or not it has an output. *)
Theorem X18_unstarted_async_upstream (u : Task.ref) (up : Task.t)
    (w : Task.world) (sch : Task.schedule) :
  Task.tasks w !! u = Some up →
  Task.flag (Task.async_execution up) = true →
  Task.thread up = None →
  settled w u →
  (Task.read_upstream sch u w).1 = Raise (AttributeError "join")
  ∧ upstream_value u w = Raise (AttributeError "join").
Proof.
  intros Hup Ha Hh Hset. rewrite upstream_value_unfold, Hup, Ha, Hh.
  split; [|done]. rewrite read_upstream_unfold. cbv zeta.
  destruct (settled_run_threads (hd [] sch) w u Hset) as [_ ->].
  by rewrite Hup, Ha, Hh.
Qed.

(** X19: the exception of a failed worker never reaches the tasks that
    depend on it.  When the worker of an asynchronous upstream task
    raises in the backend, joining it succeeds and the dependent reads
    the task as it was before: the output of an earlier execution if
    there is one, and otherwise [AttributeError] on "result". *)
Theorem X19_failed_worker_is_silent (u : Task.ref) (up : Task.t)
    (x : Task.tid) (th : Task.Thread) (payload : string) (w : Task.world) :
  Task.tasks w !! u = Some up →
  Task.flag (Task.async_execution up) = true →
  Task.thread up = Some x →
  alive w x th →
  Agent.execute_task (Task.th_agent th) (Task.th_prompt th)
    (Task.th_context th) (Some (Task.th_tools th)) = inr payload →
  upstream_value u w
  = match Task.output up with
    | Some out => Ret (TaskOutput.result out)
    | None => Raise (AttributeError "result")
    end
  ∧ Task.tasks (Task.run_thread x w) = Task.tasks w
  ∧ completed (Task.run_thread x w) x.
Proof.
  intros Hup Ha Hh Halive Hraise.
  assert (Task.tasks (Task.run_thread x w) = Task.tasks w) as Htasks.
  { apply map_eq. intros r. rewrite (run_thread_tasks _ _ _ r Halive).
    case_decide; [|done]. unfold written, backend_call. rewrite Hraise.
    simpl. by destruct (Task.tasks w !! r). }
  split_and!; [|done|].
  - rewrite upstream_value_unfold, Hup, Ha, Hh, Htasks, Hup. done.
  - apply run_thread_completes. by destruct Halive as [-> _].
Qed.

(** X20: starting an asynchronous task and then executing a task that
    depends on it hands the dependent the upstream result: if the
    upstream task has no worker running when it is started and its
    backend call returns [res], then, for every schedule, the dependent's
    backend call is set up with the context [res]. *)
Theorem X20_started_upstream_feeds_dependent (sch sch2 : Task.schedule)
    (w w1 : Task.world) (u self : Task.ref) (up me : Task.t)
    (agent_u agent : option Agent.t) (context_u context : option string)
    (tools_u tools : option (list Tool.t)) (sch1 : Task.schedule)
    (a_u a : Agent.t) (p_u p res : string) (c_u : option string)
    (tl_u : list Tool.t) :
  single_worker w →
  Task.tasks w !! u = Some up →
  Task.flag (Task.async_execution up) = true →
  settled w u →
  Task.execute_args sch u agent_u context_u tools_u w
  = (Ret (sch1, (a_u, p_u, c_u, tl_u)), w1) →
  backend_call a_u p_u c_u tl_u = Ret res →
  self ≠ u →
  Task.tasks w !! self = Some me →
  Task.context me = Some [u] →
  Task.or_else agent (Task.agent me) = Some a →
  Task._prompt me = Ret p →
  let w' := (Task.execute sch u agent_u context_u tools_u w).2 in
  ∃ sch3 ys,
    Task.execute_args sch2 self agent context tools w'
    = (Ret (sch3, (a, p, Some res, Task.list_or tools (Task.tools me))),
       Task.run_threads ys w').
Proof.
  intros Hw Hup Hasync Hset Hargs Hres Hne Hme Hctx Ha Hp w'.
  destruct (execute_args_world sch u agent_u context_u tools_u w)
    as [ys0 Hw1].
  rewrite Hargs in Hw1. simpl in Hw1. subst w1.
  destruct (run_threads_static ys0 w u up Hup) as (up1 & Hup1 & Hstu).
  destruct (run_threads_static ys0 w self me Hme) as (me1 & Hme1 & Hst).
  assert (Task.async_execution up1 = Task.async_execution up) as Hau
    by (rewrite Hstu; by destruct up).
  pose proof (execute_unfold _ _ _ _ _ _ _ _ _ _ _ _ _ Hargs Hup1) as Hex.
  rewrite Hau, Hasync in Hex.
  change (Task.execute sch u agent_u context_u tools_u w
          = (Ret None,
             spawned u up1 a_u p_u c_u tl_u (Task.run_threads ys0 w)))
    in Hex.
  subst w'. rewrite Hex. cbn [snd].
  set (w1 := Task.run_threads ys0 w) in *.
  set (x := length (Task.threads w1)).
  assert (single_worker (spawned u up1 a_u p_u c_u tl_u w1)) as Hw'.
  { apply single_worker_spawned; [done|by rewrite Hau| |].
    - by destruct (settled_run_threads ys0 w u Hset).
    - by apply single_worker_run_threads. }
  assert (Task.tasks (spawned u up1 a_u p_u c_u tl_u w1) !! self = Some me1)
    as Hself by (simpl; by rewrite lookup_insert_ne).
  apply same_static_fields in Hst as (_ & _ & Htools & Hag & Hcx & Hpr).
  rewrite <- Htools.
  replace (Some res) with (Some (join newline [res])) by done.
  apply (execute_args_context _ _ _ me1 [u]); try done; try congruence.
  constructor; [|constructor].
  rewrite upstream_value_unfold. simpl.
  rewrite lookup_insert_eq. simpl. rewrite Hau, Hasync.
  pose proof (spawned_alive u up1 a_u p_u c_u tl_u w1) as Halive.
  rewrite (run_thread_tasks _ _ _ u Halive). simpl.
  rewrite decide_True by done. rewrite lookup_insert_eq. simpl.
  unfold written. simpl. by rewrite Hres.
Qed.

(** *** The scenarios *)

Lemma scenario_single_worker : single_worker Scenario.w0.
Proof.
  intros ups u x th _ [Hx Hf] Ht. destruct x as [|x]; [|done].
  injection Hx as <-. simpl in Ht. subst u.
  exists Scenario.T2. by split_and!.
Qed.

Lemma scenario_settled (u : Task.ref) : u ≠ 1 → settled Scenario.w0 u.
Proof.
  intros Hu x th [Hx Hf]. destruct x as [|x]; [|done].
  injection Hx as <-. simpl. congruence.
Qed.

Lemma no_threads_single_worker (w : Task.world) :
  Task.threads w = [] → single_worker w.
Proof. intros Hn ups u x th _ [Hx _]. by rewrite Hn in Hx. Qed.

Lemma no_threads_settled (w : Task.world) (u : Task.ref) :
  Task.threads w = [] → settled w u.
Proof. intros Hn x th [Hx _]. by rewrite Hn in Hx. Qed.

Lemma X12_witness :
  (Task.execute [] 2 None None None Scenario.w0).1
  = Ret (Some ("A" +:+ newline +:+ "B")).
Proof.
  destruct (X12_sync_execute_records_output [] 2 Scenario.T3 None None None
              Scenario.w0 (Task.run_threads [0] Scenario.w0) []
              Scenario.writer "third" (Some ("A" +:+ newline +:+ "B"))
              [Scenario.search] ("A" +:+ newline +:+ "B"))
    as (me1 & _ & _ & _ & _ & _ & Hret); [reflexivity..|].
  apply Hret. reflexivity.
Defined.

Lemma X13_witness :
  Task.execute [] 0 None None None Pipeline.w_failing
  = (Raise (BackendError "boom"),
     Task.mkWorld {[0 := Pipeline.failing]} []
       [Task.ExecuteTask "Grumpy" "fifth" None (Some [])]).
Proof.
  refine (X13_sync_execute_backend_raises [] 0 Pipeline.failing None None
            None Pipeline.w_failing Pipeline.w_failing [] Pipeline.grumpy
            "fifth" None [] "boom" _ _ _ _); reflexivity.
Defined.

Lemma X14_witness :
  (Task.execute [] 0 None None None Pipeline.w_chain).1 = Ret None.
Proof.
  refine (proj1 (X14_async_then_join_like_sync [] 0 Pipeline.upstream None
                   None None Pipeline.w_chain Pipeline.w_chain []
                   Scenario.oracle "up" None [] _ _ _)); reflexivity.
Defined.

Lemma X15_witness :
  single_worker (Task.execute [] 2 None None None Scenario.w0).2.
Proof.
  refine (proj1 (proj2 (X15_single_worker_invariant [] 2 None None None
                          Scenario.w0 0 _ _))).
  - apply scenario_single_worker.
  - by apply scenario_settled.
Defined.

Lemma X16_witness :
  Task.tasks (Task.execute [] 2 None None None Scenario.w0).2 !! 0
  = Some Scenario.T1.
Proof.
  refine (proj2 (X16_execute_frame [] 2 0 None None None Scenario.w0
                   Scenario.T1 _) _ _); [reflexivity|discriminate|].
  by apply scenario_settled.
Defined.

Lemma X17_witness :
  ∃ ys, Task.execute [] 4 None None None Pipeline.w_stuck
        = (Raise (AttributeError "result"),
           Task.run_threads ys Pipeline.w_stuck).
Proof.
  refine (X17_upstream_failure_stops_execute [] Pipeline.w_stuck 4
            Pipeline.stuck [0] [] 3 ["A"] (AttributeError "result")
            Scenario.writer None None None _ _ _ _ _ _); try reflexivity.
  - intros u x th Hu [Hx Hf] Ht. destruct x as [|x]; [|done].
    injection Hx as <-. simpl in Ht. subst u. simpl in Hu.
    rewrite !elem_of_cons, elem_of_nil in Hu. by destruct Hu as [?|[?|[]]].
  - repeat constructor.
Defined.

Lemma X18_witness :
  (Task.read_upstream [] 0 Pipeline.w_chain).1
  = Raise (AttributeError "join").
Proof.
  refine (proj1 (X18_unstarted_async_upstream 0 Pipeline.upstream
                   Pipeline.w_chain [] _ _ _ _)); try reflexivity.
  by apply no_threads_settled.
Defined.

Lemma X19_witness :
  upstream_value 0 Pipeline.w_doomed = Raise (AttributeError "result").
Proof.
  refine (proj1 (X19_failed_worker_is_silent 0 Pipeline.doomed 0
                   (Task.mkThread 0 Pipeline.grumpy "doomed" None [] false)
                   "boom" Pipeline.w_doomed _ _ _ _ _)); try reflexivity.
  by split.
Defined.

Lemma X20_witness :
  ∃ sch3 ys,
    Task.execute_args [] 1 None (Some "ignored") None
      (Task.execute [] 0 None None None Pipeline.w_chain).2
    = (Ret (sch3, (Scenario.writer, "down", Some "B", [])),
       Task.run_threads ys
         (Task.execute [] 0 None None None Pipeline.w_chain).2).
Proof.
  refine (X20_started_upstream_feeds_dependent [] [] Pipeline.w_chain
            Pipeline.w_chain 0 1 Pipeline.upstream Pipeline.dependent
            None None None (Some "ignored") None None [] Scenario.oracle
            Scenario.writer "up" "down" "B" None [] _ _ _ _ _ _ _ _ _ _ _);
    try reflexivity; try discriminate.
  - by apply no_threads_single_worker.
  - by apply no_threads_settled.
Defined.

(** The chain as a whole: start the upstream task, then execute the
    dependent one. *)
Example chain_runs :
  (Task.execute [] 1 None None None
     (Task.execute [] 0 None None None Pipeline.w_chain).2).1
  = Ret (Some "B")
  ∧ Task.trace
      (Task.execute [] 1 None None None
         (Task.execute [] 0 None None None Pipeline.w_chain).2).2
    = [Task.ExecuteTask "Oracle" "up" None (Some []);
       Task.ExecuteTask "Writer" "down" (Some "B") (Some []);
       Task.Callback "notify" (TaskOutput.mk "down" "B")].
Proof. split; reflexivity. Qed.

(** Fields outside the modelled fragment of [str.format], and a brace
    inside a plain field name. *)
Example str_format_ex3 :
  str_format "{a:{b}}" [("a", "x"); ("b", ">3")]
  = Raise (FormatUnsupported "a:")
  ∧ str_format "{coworkers!r}" [("coworkers", "A, B")]
    = Raise (FormatUnsupported "coworkers!r")
  ∧ str_format "{a{b}}" [("a", "x")] = Raise ValueError.
Proof. split_and!; reflexivity. Qed.
